(** * The aggregation API of the context visualizer

    A shallow embedding of [context_visualizer/api]: the four request
    handlers [get_system], [get_topology], [get_workers] and [get_pools],
    with the configuration lookup [_load_config] that the last one calls.

    The handlers work on decoded JSON-like data, so the embedding starts
    with a value type for that data and the handful of Python operations
    the handlers apply to it ([dict.get], [str], [int], [>], [sum], [or],
    truth testing, iteration).  An operation that can raise returns a
    [result]; an exception that no handler catches ends the request and is
    what the handler's model returns.

    Scope of the value model:
    - the data is what JSON holds: null, booleans, integers, floats,
      strings, lists, and dicts with string keys; a dict is an association
      list, looked up first match, in insertion order;
    - a container id enters the handlers only through [str], so it is
      taken as text;
    - strings are byte strings; [int] of a string is Python's grammar on
      ASCII text, and text with a byte above 127 is left to the runtime
      record below;
    - integers are unbounded; their conversion to and from text is subject
      to the interpreter's limit on the number of digits
      ([sys.get_int_max_str_digits()], 4300 unless configured, 0 for none),
      a field of the runtime record below;
    - floats are carried as data of an abstract type: their arithmetic,
      the order on lists and the text of floats, lists and dicts are fields
      of a [runtime] record, so that every statement holds for any
      behaviour of these;
    - a handler's answer is the value it hands to [jsonify], with the
      status code. *)

From Stdlib Require Import ZArith List String Ascii Bool Lia DecimalString.
From Stdlib Require Import DecimalPos Permutation.
Import ListNotations.
Open Scope string_scope.
Open Scope list_scope.
Open Scope Z_scope.
Set Warnings "-register-all".

(** ** Exceptions and results *)

Inductive exn : Type :=
| TypeError
| ValueError
| AttributeError
| OverflowError
| OSError
| YAMLError.

Inductive result (A : Type) : Type :=
| Ok (a : A)
| Raise (e : exn).

Arguments Ok {A} a.
Arguments Raise {A} e.

Definition bind {A B : Type} (m : result A) (k : A -> result B) : result B :=
  match m with
  | Ok a => k a
  | Raise e => Raise e
  end.

Notation "x <- m ;; k" := (bind m (fun x => k))
  (at level 61, m at next level, right associativity).

(** ** Text helpers *)

(** The characters [int] skips around a number: tab, line feed, vertical
    tab, form feed, carriage return and space. *)
Definition is_space (c : ascii) : bool :=
  let n := Z.of_N (N_of_ascii c) in
  ((9 <=? n) && (n <=? 13)) || (n =? 32).

Definition digit_of (c : ascii) : option Z :=
  let n := Z.of_N (N_of_ascii c) in
  if (48 <=? n) && (n <=? 57) then Some (n - 48) else None.

Fixpoint lstrip (s : string) : string :=
  match s with
  | EmptyString => EmptyString
  | String c r => if is_space c then lstrip r else s
  end.

Fixpoint rstrip (s : string) : string :=
  match s with
  | EmptyString => EmptyString
  | String c r =>
      let r' := rstrip r in
      if is_space c && (r' =? "")%string then EmptyString else String c r'
  end.

(** Digits with single underscores between them; [seen] says that the
    previous character was a digit. *)
Fixpoint read_digits (s : string) (acc : Z) (seen : bool) : option Z :=
  match s with
  | EmptyString => if seen then Some acc else None
  | String c r =>
      match digit_of c with
      | Some d => read_digits r (10 * acc + d) true
      | None =>
          if (Ascii.eqb c "_") && seen then read_digits r acc false else None
      end
  end.

(** The grammar of [int(s)] for ASCII text: optional sign, then digits,
    with blanks allowed around the whole. *)
Definition parse_digits (s : string) : option Z :=
  match lstrip (rstrip s) with
  | EmptyString => None
  | String c r =>
      if Ascii.eqb c "+" then read_digits r 0 false
      else if Ascii.eqb c "-" then option_map Z.opp (read_digits r 0 false)
      else read_digits (String c r) 0 false
  end.

(** The number of digit characters of a text. *)
Fixpoint count_digits (s : string) : Z :=
  match s with
  | EmptyString => 0
  | String c r =>
      (match digit_of c with Some _ => 1 | None => 0 end) + count_digits r
  end.

(** The characters a number can be written with: the digits, the two
    signs, the underscore, and the blanks around the whole. *)
Definition numeral_char (c : ascii) : bool :=
  match digit_of c with
  | Some _ => true
  | None => Ascii.eqb c "+" || Ascii.eqb c "-" || Ascii.eqb c "_" || is_space c
  end.

Fixpoint numeral_text (s : string) : bool :=
  match s with
  | EmptyString => true
  | String c r => numeral_char c && numeral_text r
  end.

(** With a limit above 0 the interpreter refuses to convert more than
    [limit] digits between text and integer, in either direction. *)
Definition over_limit (limit digits : Z) : bool :=
  (0 <? limit) && (limit <? digits).

(** [int(s)] for ASCII text under the digit limit; [None] is
    [ValueError], for text that is no number and for a number of too many
    digits (leading zeros count) alike. *)
Definition parse_int (limit : Z) (s : string) : option Z :=
  if over_limit limit (count_digits s) then None else parse_digits s.

Fixpoint is_ascii_text (s : string) : bool :=
  match s with
  | EmptyString => true
  | String c r => (Z.of_N (N_of_ascii c) <? 128) && is_ascii_text r
  end.

(** The decimal numeral of an integer: what [str(z)] returns when it
    returns. *)
Definition decimal (z : Z) : string := NilZero.string_of_int (Z.to_int z).

(** [str(z)] returns when [z] has no more digits than the limit allows,
    and raises [ValueError] otherwise. *)
Definition int_fits (limit z : Z) : bool :=
  negb (over_limit limit (count_digits (decimal z))).

(** ** Association lists *)

Fixpoint assoc {A : Type} (k : string) (l : list (string * A)) : option A :=
  match l with
  | [] => None
  | (k', v) :: r => if (k =? k')%string then Some v else assoc k r
  end.

(** [d[k] = v] on an insertion-ordered dict: an existing key keeps its
    place, a new key goes last. *)
Fixpoint assoc_set {A : Type} (k : string) (v : A) (l : list (string * A))
  : list (string * A) :=
  match l with
  | [] => [(k, v)]
  | (k', v') :: r =>
      if (k =? k')%string then (k, v) :: r else (k', v') :: assoc_set k v r
  end.

(** ** Values *)

Section Python.

Variable pyfloat : Type.

Inductive pyval : Type :=
| PNone
| PBool (b : bool)
| PInt (z : Z)
| PFloat (x : pyfloat)
| PStr (s : string)
| PList (l : list pyval)
| PDict (d : list (string * pyval)).

Definition record : Type := list (string * pyval).

(** What the embedding leaves to the interpreter. *)
Record runtime : Type := {
  (* int(x): truncation, raising on infinities and NaN *)
  int_of_float : pyfloat -> result Z;
  (* bool(x) *)
  float_truth : pyfloat -> bool;
  (* a > b where a float meets a number, or a list meets a list *)
  gt_ext : pyval -> pyval -> result bool;
  (* str(v) for a float, a list or a dict; it may raise, as the text of
     a list that holds an integer of too many digits does *)
  str_ext : pyval -> result string;
  (* int(s) for text with a byte above 127 *)
  int_of_text_ext : string -> option Z;
  (* sum() from the first float on: the integer total so far, that float,
     and the items still to come, each as the generator will yield it *)
  sum_floats : Z -> pyfloat -> list (result pyval) -> result pyval;
  (* sys.get_int_max_str_digits(): 0 for no limit, and otherwise at least
     640, the least value the interpreter accepts *)
  int_max_str_digits : Z
}.

Variable rt : runtime.

(** [bool] is a subclass of [int]. *)
Definition as_int (v : pyval) : option Z :=
  match v with
  | PInt z => Some z
  | PBool b => Some (if b then 1 else 0)
  | _ => None
  end.

(** [d.get(k)] and [d.get(k, dflt)] on a dict. *)
Definition dict_get (d : record) (k : string) : pyval :=
  match assoc k d with
  | Some v => v
  | None => PNone
  end.

Definition dict_get_default (d : record) (k : string) (dflt : pyval) : pyval :=
  match assoc k d with
  | Some v => v
  | None => dflt
  end.

(** [v.get(k, dflt)] on any value: only a dict has the method. *)
Definition py_get (v : pyval) (k : string) (dflt : pyval) : result pyval :=
  match v with
  | PDict d => Ok (dict_get_default d k dflt)
  | _ => Raise AttributeError
  end.

Definition py_truth (v : pyval) : bool :=
  match v with
  | PNone => false
  | PBool b => b
  | PInt z => negb (z =? 0)
  | PFloat x => float_truth rt x
  | PStr s => negb (s =? "")%string
  | PList l => match l with [] => false | _ :: _ => true end
  | PDict d => match d with [] => false | _ :: _ => true end
  end.

(** [a or b] *)
Definition py_or (a b : pyval) : pyval := if py_truth a then a else b.

(** [str(v)] *)
Definition py_str (v : pyval) : result string :=
  match v with
  | PNone => Ok "None"
  | PBool true => Ok "True"
  | PBool false => Ok "False"
  | PInt z =>
      if int_fits (int_max_str_digits rt) z then Ok (decimal z)
      else Raise ValueError
  | PStr s => Ok s
  | PFloat _ | PList _ | PDict _ => str_ext rt v
  end.

Definition int_of_text (s : string) : result Z :=
  let parsed :=
    if is_ascii_text s then parse_int (int_max_str_digits rt) s
    else int_of_text_ext rt s in
  match parsed with
  | Some z => Ok z
  | None => Raise ValueError
  end.

(** [int(v)] *)
Definition py_int (v : pyval) : result Z :=
  match v with
  | PInt z => Ok z
  | PBool b => Ok (if b then 1 else 0)
  | PFloat x => int_of_float rt x
  | PStr s => int_of_text s
  | PNone | PList _ | PDict _ => Raise TypeError
  end.

(** [a > b] *)
Definition py_gt (a b : pyval) : result bool :=
  match a, b with
  | (PInt _ | PBool _), (PInt _ | PBool _) =>
      match as_int a, as_int b with
      | Some x, Some y => Ok (y <? x)
      | _, _ => Raise TypeError
      end
  | PStr s, PStr t => Ok (String.ltb t s)
  | PFloat _, (PFloat _ | PInt _ | PBool _)
  | (PInt _ | PBool _), PFloat _
  | PList _, PList _ => gt_ext rt a b
  | _, _ => Raise TypeError
  end.

(** [iter(v)]: the elements a [for] loop visits.  A dict yields its keys
    and a string its characters (its bytes here: the one loop that could
    meet a string stops at the first of them, whatever it is). *)
Definition py_iter (v : pyval) : result (list pyval) :=
  match v with
  | PList l => Ok l
  | PDict d => Ok (map (fun kv => PStr (fst kv)) d)
  | PStr s => Ok (map (fun c => PStr (String c EmptyString)) (list_ascii_of_string s))
  | PNone | PBool _ | PInt _ | PFloat _ => Raise TypeError
  end.

(** A handler returns a JSON body with an HTTP status. *)
Definition response : Type := (pyval * Z)%type.

(** What a call of the runtime client gives: the per-container mapping,
    or an exception [exc] with [str(exc) = msg]. *)
Inductive fetched : Type :=
| Fetched (raw : list (string * pyval))
| Failed (msg : string).

(** ** topology.py *)

(** The working dict [nodes]: identity key to the entry kept for it. *)
Definition node_table : Type := list (string * record).

(** Lines 30-33: [nid_str], the identity a record is filed under;
    [str(nid)] raises for an integer of too many digits. *)
Definition node_key (cid : string) (entry : record) : result string :=
  let nid := dict_get entry "node_id" in
  let nid := match nid with PNone => PStr cid | _ => nid end in
  py_str nid.

Definition event_id (entry : record) : pyval :=
  dict_get_default entry "event_id" (PInt 0).

(** Lines 35-37: file the entry under [nid_str] unless the stored one is
    at least as new. *)
Definition file_under (nid_str : string) (entry : record) (nodes : node_table)
  : result node_table :=
  match assoc nid_str nodes with
  | None => Ok (assoc_set nid_str entry nodes)
  | Some prev =>
      newer <- py_gt (event_id entry) (event_id prev) ;;
      Ok (if newer then assoc_set nid_str entry nodes else nodes)
  end.

(** Lines 30-37: the body of the inner loop for a dict entry. *)
Definition keep_latest (cid : string) (entry : record) (nodes : node_table)
  : result node_table :=
  nid_str <- node_key cid entry ;;
  file_under nid_str entry nodes.

(** Lines 26-37: the inner loop over one container's entries. *)
Fixpoint scan_entries (cid : string) (entries : list pyval) (nodes : node_table)
  : result node_table :=
  match entries with
  | [] => Ok nodes
  | PDict entry :: rest =>
      nodes' <- keep_latest cid entry nodes ;;
      scan_entries cid rest nodes'
  | _ :: rest => scan_entries cid rest nodes
  end.

(** Lines 23-37: the outer loop over [raw.items()]. *)
Fixpoint collect_nodes (raw : list (string * pyval)) (nodes : node_table)
  : result node_table :=
  match raw with
  | [] => Ok nodes
  | (cid, PList entries) :: rest =>
      nodes' <- scan_entries cid entries nodes ;;
      collect_nodes rest nodes'
  | _ :: rest => collect_nodes rest nodes
  end.

(** Lines 45-53: the numeric [node_id] shown for an entry. *)
Definition numeric_node_id (nid_str : string) (entry : record) : result Z :=
  match dict_get entry "node_id" with
  | PNone =>
      match py_int (PStr nid_str) with
      | Ok z => Ok z
      | Raise ValueError | Raise TypeError => Ok 0
      | Raise e => Raise e
      end
  | raw_nid => py_int raw_nid
  end.

(** Lines 45-64: one element of [result]. *)
Definition node_stat (local_hostname nid_str : string) (entry : record)
  : result pyval :=
  node_id <- numeric_node_id nid_str entry ;;
  Ok (PDict
        [ ("node_id", PInt node_id);
          ("hostname", py_or (dict_get entry "hostname") (PStr local_hostname));
          ("ip_address", dict_get_default entry "ip_address" (PStr ""));
          ("cpu_usage_pct", dict_get_default entry "cpu_usage_pct" (PInt 0));
          ("ram_usage_pct", dict_get_default entry "ram_usage_pct" (PInt 0));
          ("gpu_count", dict_get_default entry "gpu_count" (PInt 0));
          ("gpu_usage_pct", dict_get_default entry "gpu_usage_pct" (PInt 0));
          ("hbm_usage_pct", dict_get_default entry "hbm_usage_pct" (PInt 0)) ]).

(** Lines 42-64: the loop over [nodes.items()]. *)
Fixpoint node_stats (local_hostname : string) (nodes : node_table)
  : result (list pyval) :=
  match nodes with
  | [] => Ok []
  | (nid_str, entry) :: rest =>
      stat <- node_stat local_hostname nid_str entry ;;
      stats <- node_stats local_hostname rest ;;
      Ok (stat :: stats)
  end.

(** [get_topology]; [local_hostname] is what [socket.gethostname()]
    returns and [stats_all] what [get_system_stats_all()] does. *)
Definition get_topology (local_hostname : string) (stats_all : fetched)
  : result response :=
  match stats_all with
  | Failed msg => Ok (PDict [("error", PStr msg)], 503)
  | Fetched raw =>
      nodes <- collect_nodes raw [] ;;
      stats <- node_stats local_hostname nodes ;;
      Ok (PDict [("nodes", PList stats)], 200)
  end.

(** ** workers.py *)

(** Lines 20-23: what one container's [data] adds to [workers]. *)
Definition add_report (workers : list pyval) (data : pyval) : list pyval :=
  match data with
  | PList l => workers ++ l
  | PDict _ => workers ++ [data]
  | _ => workers
  end.

(** Lines 18-23: the flattening loop. *)
Definition flatten_workers (raw : list (string * pyval)) : list pyval :=
  fold_left (fun workers item => add_report workers (snd item)) raw [].

(** [sum(w.get(key, 0) for w in workers)], from the running total [acc]:
    the generator hands over one field at a time, and [acc + v] raises
    for a field that is no number. *)
Fixpoint sum_field (key : string) (workers : list pyval) (acc : Z)
  : result pyval :=
  match workers with
  | [] => Ok (PInt acc)
  | w :: rest =>
      v <- py_get w key (PInt 0) ;;
      match v with
      | PInt z => sum_field key rest (acc + z)
      | PBool b => sum_field key rest (acc + (if b then 1 else 0))
      | PFloat x =>
          sum_floats rt acc x (map (fun w' => py_get w' key (PInt 0)) rest)
      | PNone | PStr _ | PList _ | PDict _ => Raise TypeError
      end
  end.

Definition get_workers (worker_stats : fetched) : result response :=
  match worker_stats with
  | Failed msg => Ok (PDict [("error", PStr msg)], 503)
  | Fetched raw =>
      let workers := flatten_workers raw in
      total_queued <- sum_field "queued" workers 0 ;;
      total_blocked <- sum_field "blocked" workers 0 ;;
      total_processed <- sum_field "processed" workers 0 ;;
      Ok (PDict
            [ ("workers", PList workers);
              ("summary",
               PDict
                 [ ("count", PInt (Z.of_nat (List.length workers)));
                   ("queued", total_queued);
                   ("blocked", total_blocked);
                   ("processed", total_processed) ]) ], 200)
  end.

(** ** system.py *)

(** [get_system]; [connected] is what [is_connected()] returns. *)
Definition get_system (connected : bool) (worker_stats : fetched)
  : result response :=
  match worker_stats with
  | Failed msg =>
      if negb connected
      then Ok (PDict [("connected", PBool false); ("error", PStr msg)], 503)
      else Ok (PDict [("connected", PBool true); ("error", PStr msg)], 503)
  | Fetched raw =>
      let workers := flatten_workers raw in
      queued <- sum_field "queued" workers 0 ;;
      blocked <- sum_field "blocked" workers 0 ;;
      processed <- sum_field "processed" workers 0 ;;
      Ok (PDict
            [ ("connected", PBool true);
              ("workers", PInt (Z.of_nat (List.length workers)));
              ("queued", queued);
              ("blocked", blocked);
              ("processed", processed) ], 200)
  end.

(** ** config.py and pools.py *)

(** What [_load_config] reads of its surroundings: the two environment
    variables, the path under the home directory, [os.path.isfile], and
    [safe_load path] for opening [path] and parsing it as YAML. *)
Record config_env : Type := {
  CHI_SERVER_CONF : option string;
  WRP_RUNTIME_CONF : option string;
  home_config : string;
  isfile : string -> bool;
  safe_load : string -> result pyval
}.

(** Lines 26-30 of config.py: the first candidate that is a file. *)
Fixpoint load_first (env : config_env) (candidates : list (option string))
  : result pyval :=
  match candidates with
  | [] => Ok PNone
  | Some path :: rest =>
      if negb (path =? "")%string && isfile env path
      then safe_load env path
      else load_first env rest
  | None :: rest => load_first env rest
  end.

Definition _load_config (env : config_env) : result pyval :=
  load_first env
    [CHI_SERVER_CONF env; WRP_RUNTIME_CONF env; Some (home_config env)].

(** Lines 19-24 of pools.py: one descriptor. *)
Definition pool_descriptor (entry : pyval) : result pyval :=
  mod_name <- py_get entry "mod_name" (PStr "") ;;
  pool_name <- py_get entry "pool_name" (PStr "") ;;
  pool_id <- py_get entry "pool_id" (PStr "") ;;
  pool_query <- py_get entry "pool_query" (PStr "") ;;
  Ok (PDict
        [ ("mod_name", mod_name);
          ("pool_name", pool_name);
          ("pool_id", pool_id);
          ("pool_query", pool_query) ]).

Fixpoint pool_descriptors (entries : list pyval) : result (list pyval) :=
  match entries with
  | [] => Ok []
  | entry :: rest =>
      pool <- pool_descriptor entry ;;
      pools <- pool_descriptors rest ;;
      Ok (pool :: pools)
  end.

Definition get_pools (env : config_env) : result response :=
  cfg <- _load_config env ;;
  match cfg with
  | PNone => Ok (PDict [("error", PStr "config not found")], 404)
  | _ =>
      compose <- py_get cfg "compose" (PList []) ;;
      entries <- py_iter (py_or compose (PList [])) ;;
      pools <- pool_descriptors entries ;;
      Ok (PDict [("pools", PList pools)], 200)
  end.

(** [get_config] of config.py, lines 33-42. *)
Definition get_config (env : config_env) : result response :=
  cfg <- _load_config env ;;
  match cfg with
  | PNone =>
      Ok (PDict
            [ ("error", PStr "no config file found");
              ("searched",
               PList [ PStr "CHI_SERVER_CONF"; PStr "WRP_RUNTIME_CONF";
                       PStr "~/.chimaera/chimaera.yaml" ]) ], 404)
  | _ => Ok (PDict [("config", cfg)], 200)
  end.

(** ** Views used in the statements *)

(** The keys of a list in the order of their first occurrence. *)
Fixpoint first_seen (keys : list string) : list string :=
  match keys with
  | [] => []
  | k :: rest => k :: filter (fun k' => negb (k' =? k)%string) (first_seen rest)
  end.

Definition is_dict (v : pyval) : bool :=
  match v with
  | PDict _ => true
  | _ => false
  end.

(** A [node_id] that is missing, null, a boolean, or an integer that
    [str] can write. *)
Definition plain_node_id (entry : record) : bool :=
  match dict_get entry "node_id" with
  | PNone | PBool _ => true
  | PInt z => int_fits (int_max_str_digits rt) z
  | _ => false
  end.

(** The keys of an element of the topology answer. *)
Definition node_stat_keys : list string :=
  [ "node_id"; "hostname"; "ip_address"; "cpu_usage_pct"; "ram_usage_pct";
    "gpu_count"; "gpu_usage_pct"; "hbm_usage_pct" ].

(** Python's numbers: the values [+] accepts next to an integer. *)
Definition is_number (v : pyval) : bool :=
  match v with
  | PInt _ | PBool _ | PFloat _ => true
  | _ => false
  end.

(** The records the node loops take from one container's report. *)
Definition node_records (entries : pyval) : list record :=
  match entries with
  | PList l =>
      flat_map (fun entry => match entry with PDict d => [d] | _ => [] end) l
  | _ => []
  end.

(** The records the worker loop takes from one container's report. *)
Definition worker_records (data : pyval) : list pyval :=
  match data with
  | PList l => l
  | PDict _ => [data]
  | _ => []
  end.

(** Every record the node loops visit, in the order of the visit, with
    what [str(nid)] gives for it. *)
Definition visits (raw : list (string * pyval)) : list (result string * record) :=
  flat_map
    (fun item =>
       map (fun entry => (node_key (fst item) entry, entry))
           (node_records (snd item)))
    raw.

(** The loops of [collect_nodes] run over such a list: the identity is
    computed, and may raise, when its record is visited. *)
Fixpoint file_all (todo : list (result string * record)) (nodes : node_table)
  : result node_table :=
  match todo with
  | [] => Ok nodes
  | (key, entry) :: rest =>
      nid_str <- key ;;
      nodes' <- file_under nid_str entry nodes ;;
      file_all rest nodes'
  end.

Definition has_text (v : result string * record) : bool :=
  match fst v with
  | Ok _ => true
  | Raise _ => false
  end.

(** The visited records whose identity has a text, under that identity,
    in the order of the visit: all of them when the loops complete. *)
Definition candidates (raw : list (string * pyval)) : list (string * record) :=
  flat_map
    (fun v => match fst v with Ok k => [(k, snd v)] | Raise _ => [] end)
    (visits raw).

(** A record with its identity computed. *)
Definition keyed (c : string * record) : result string * record :=
  (Ok (fst c), snd c).

(** The loops over records whose identities are already computed. *)
Fixpoint file_each (cands : list (string * record)) (nodes : node_table)
  : result node_table :=
  match cands with
  | [] => Ok nodes
  | (nid_str, entry) :: rest =>
      nodes' <- file_under nid_str entry nodes ;;
      file_each rest nodes'
  end.

(** *** The reconciliation as the specification words it *)

(** The records of the reports with the container that sent each, in the
    order in which the containers and their records come. *)
Definition visited_records (raw : list (string * pyval)) : list (string * record) :=
  flat_map
    (fun item => map (fun entry => (fst item, entry)) (node_records (snd item)))
    raw.

(** The identity of a record: its [node_id] when it has one, as the
    decimal numeral of an integer or as the text itself, and the id of
    its container when it has none.  Other [node_id]s, and integers that
    the digit limit [limit] keeps from being written, have none here. *)
Definition stated_identity (limit : Z) (cid : string) (e : record) : option string :=
  match assoc "node_id" e with
  | None | Some PNone => Some cid
  | Some (PInt z) => if int_fits limit z then Some (decimal z) else None
  | Some (PStr s) => Some s
  | Some _ => None
  end.

(** The freshness counter of a record: its integer [event_id], and 0
    when it has none. *)
Definition stated_counter (e : record) : option Z :=
  match assoc "event_id" e with
  | None => Some 0
  | Some (PInt z) => Some z
  | Some _ => None
  end.

Definition counter_num (e : record) : Z :=
  match stated_counter e with
  | Some z => z
  | None => 0
  end.

Definition reconcilable (limit : Z) (ce : string * record) : bool :=
  match stated_identity limit (fst ce) (snd ce), stated_counter (snd ce) with
  | Some _, Some _ => true
  | _, _ => false
  end.

(** The records of identity [k], in the order of the visit. *)
Definition reports_of (limit : Z) (k : string) (visited : list (string * record))
  : list record :=
  map snd
    (filter
       (fun ce =>
          match stated_identity limit (fst ce) (snd ce) with
          | Some k' => (k' =? k)%string
          | None => false
          end)
       visited).

(** The records of one identity, in the order of the visit. *)
Definition with_key (k : string) (cands : list (string * record)) : list record :=
  map snd (filter (fun c => (fst c =? k)%string) cands).

(** The event counter of a record as a number. *)
Definition event_num (entry : record) : Z :=
  match as_int (event_id entry) with
  | Some z => z
  | None => 0
  end.

Definition int_event (entry : record) : bool :=
  match as_int (event_id entry) with
  | Some _ => true
  | None => false
  end.

(** [e] is the first record of [l] with the greatest event counter. *)
Definition first_max (e : record) (l : list record) : Prop :=
  exists before after,
    l = before ++ e :: after /\
    Forall (fun e' => event_num e' < event_num e) before /\
    Forall (fun e' => event_num e' <= event_num e) after.

(** [nodes] holds, for every identity among the records [seen] and for
    no other, the first record of that identity with the greatest event
    counter, and holds no identity twice. *)
Definition reconciled (seen : list (string * record)) (nodes : node_table) : Prop :=
  NoDup (map fst nodes) /\
  (forall k, In k (map fst nodes) <-> In k (map fst seen)) /\
  (forall k e, In (k, e) nodes -> first_max e (with_key k seen)).

(** The field [key] of an output record [fields] carries what the entry
    [e] has under [key], or [zero] when [e] has no such key. *)
Definition shown (key : string) (zero : pyval) (e fields : record) : Prop :=
  match assoc key e with
  | Some v => assoc key fields = Some v
  | None => assoc key fields = Some zero
  end.

(** A worker field as a number. *)
Definition field_num (key : string) (w : pyval) : Z :=
  match w with
  | PDict d =>
      match as_int (dict_get_default d key (PInt 0)) with
      | Some z => z
      | None => 0
      end
  | _ => 0
  end.

Definition int_field (key : string) (w : pyval) : bool :=
  match w with
  | PDict d =>
      match as_int (dict_get_default d key (PInt 0)) with
      | Some _ => true
      | None => false
      end
  | _ => false
  end.

Definition counted_worker (w : pyval) : bool :=
  int_field "queued" w && int_field "blocked" w && int_field "processed" w.

Definition total (key : string) (workers : list pyval) : Z :=
  fold_right (fun w acc => field_num key w + acc) 0 workers.

(** The candidate paths of [_load_config] and the one it settles on. *)
Definition config_candidates (env : config_env) : list (option string) :=
  [CHI_SERVER_CONF env; WRP_RUNTIME_CONF env; Some (home_config env)].

Definition is_config_file (env : config_env) (candidate : option string) : bool :=
  match candidate with
  | Some path => negb (path =? "")%string && isfile env path
  | None => false
  end.

Definition config_file (env : config_env) : option string :=
  match find (is_config_file env) (config_candidates env) with
  | Some (Some path) => Some path
  | _ => None
  end.

(** The descriptor [get_pools] builds from a compose entry that is a
    dict. *)
Definition describe_pool (entry : record) : pyval :=
  PDict
    [ ("mod_name", dict_get_default entry "mod_name" (PStr ""));
      ("pool_name", dict_get_default entry "pool_name" (PStr ""));
      ("pool_id", dict_get_default entry "pool_id" (PStr ""));
      ("pool_query", dict_get_default entry "pool_query" (PStr "")) ].

End Python.

Arguments PNone {pyfloat}.
Arguments PBool {pyfloat} b.
Arguments PInt {pyfloat} z.
Arguments PFloat {pyfloat} x.
Arguments PStr {pyfloat} s.
Arguments PList {pyfloat} l.
Arguments PDict {pyfloat} d.
Arguments Fetched {pyfloat} raw.
Arguments Failed {pyfloat} msg.
Arguments Build_runtime {pyfloat}.
Arguments int_max_str_digits {pyfloat} r.
Arguments Build_config_env {pyfloat}.
Arguments as_int {pyfloat} v.
Arguments dict_get {pyfloat} d k.
Arguments dict_get_default {pyfloat} d k dflt.
Arguments py_get {pyfloat} v k dflt.
Arguments py_truth {pyfloat} rt v.
Arguments py_or {pyfloat} rt a b.
Arguments py_str {pyfloat} rt v.
Arguments int_of_text {pyfloat} rt s.
Arguments py_int {pyfloat} rt v.
Arguments py_gt {pyfloat} rt a b.
Arguments py_iter {pyfloat} v.
Arguments node_key {pyfloat} rt cid entry.
Arguments event_id {pyfloat} entry.
Arguments file_under {pyfloat} rt nid_str entry nodes.
Arguments keep_latest {pyfloat} rt cid entry nodes.
Arguments scan_entries {pyfloat} rt cid entries nodes.
Arguments collect_nodes {pyfloat} rt raw nodes.
Arguments numeric_node_id {pyfloat} rt nid_str entry.
Arguments node_stat {pyfloat} rt local_hostname nid_str entry.
Arguments node_stats {pyfloat} rt local_hostname nodes.
Arguments get_topology {pyfloat} rt local_hostname stats_all.
Arguments add_report {pyfloat} workers data.
Arguments flatten_workers {pyfloat} raw.
Arguments sum_field {pyfloat} rt key workers acc.
Arguments get_workers {pyfloat} rt worker_stats.
Arguments get_system {pyfloat} rt connected worker_stats.
Arguments CHI_SERVER_CONF {pyfloat} c.
Arguments WRP_RUNTIME_CONF {pyfloat} c.
Arguments home_config {pyfloat} c.
Arguments isfile {pyfloat} c.
Arguments safe_load {pyfloat} c.
Arguments load_first {pyfloat} env candidates.
Arguments _load_config {pyfloat} env.
Arguments pool_descriptor {pyfloat} entry.
Arguments pool_descriptors {pyfloat} entries.
Arguments get_pools {pyfloat} rt env.
Arguments get_config {pyfloat} env.
Arguments is_dict {pyfloat} v.
Arguments plain_node_id {pyfloat} rt entry.
Arguments is_number {pyfloat} v.
Arguments node_records {pyfloat} entries.
Arguments worker_records {pyfloat} data.
Arguments candidates {pyfloat} rt raw.
Arguments visits {pyfloat} rt raw.
Arguments file_all {pyfloat} rt todo nodes.
Arguments has_text {pyfloat} v.
Arguments keyed {pyfloat} c.
Arguments file_each {pyfloat} rt cands nodes.
Arguments visited_records {pyfloat} raw.
Arguments stated_identity {pyfloat} limit cid e.
Arguments stated_counter {pyfloat} e.
Arguments counter_num {pyfloat} e.
Arguments reconcilable {pyfloat} limit ce.
Arguments reports_of {pyfloat} limit k visited.
Arguments with_key {pyfloat} k cands.
Arguments event_num {pyfloat} entry.
Arguments int_event {pyfloat} entry.
Arguments first_max {pyfloat} e l.
Arguments reconciled {pyfloat} seen nodes.
Arguments shown {pyfloat} key zero e fields.
Arguments field_num {pyfloat} key w.
Arguments int_field {pyfloat} key w.
Arguments counted_worker {pyfloat} w.
Arguments total {pyfloat} key workers.
Arguments config_candidates {pyfloat} env.
Arguments is_config_file {pyfloat} env candidate.
Arguments config_file {pyfloat} env.
Arguments describe_pool {pyfloat} entry.

(** ** Sample data *)

(** The samples hold no float and compare no lists, so of the runtime
    only the digit limit is reached when they run, here the interpreter's
    default; this runtime has no floats at all. *)
Definition plain : runtime Empty_set :=
  Build_runtime
    (fun x : Empty_set => match x with end)
    (fun _ => true)
    (fun _ _ => Raise TypeError)
    (fun _ => Ok "")
    (fun _ => None)
    (fun _ x _ => match x with end)
    4300.

Definition val : Type := pyval Empty_set.

(** Two containers report node 1; the second report is newer. *)
Definition two_reports : list (string * val) :=
  [ ("c1", PList [PDict [("node_id", PInt 1); ("event_id", PInt 5);
                         ("cpu_usage_pct", PInt 10)]]);
    ("c2", PList [PDict [("node_id", PInt 1); ("event_id", PInt 7);
                         ("cpu_usage_pct", PInt 20)]]) ].

(** The older report of node 1 names the host, the newer one does not. *)
Definition named_then_unnamed : list (string * val) :=
  [ ("c1", PList [PDict [("node_id", PInt 1); ("event_id", PInt 5);
                         ("hostname", PStr "alpha")]]);
    ("c2", PList [PDict [("node_id", PInt 1); ("event_id", PInt 7)]]) ].

(** A container that answers with one record instead of a list. *)
Definition lone_record : val := PDict [("node_id", PInt 1); ("event_id", PInt 5)].

Definition single_record : list (string * val) := [("c1", lone_record)].

(** Records without [node_id], from a container with a numeric name and
    from one without. *)
Definition anonymous_nodes : list (string * val) :=
  [ ("7", PList [PDict [("event_id", PInt 3)]]);
    ("edge", PList [PDict [("event_id", PInt 4)]]) ].

Definition worker_reports : list (string * val) :=
  [ ("c1", PList [PDict [("queued", PInt 2); ("processed", PInt 5)];
                  PDict [("blocked", PInt 1)]]) ].

(** A config file that exists and parses to nothing, as an empty YAML
    document does. *)
Definition empty_config : config_env Empty_set :=
  Build_config_env (Some "/etc/chimaera.yaml") None "/root/.chimaera/chimaera.yaml"
    (fun _ => true) (fun _ => Ok PNone).

(** A config file without a compose section. *)
Definition no_compose_config : config_env Empty_set :=
  Build_config_env None None "/root/.chimaera/chimaera.yaml"
    (fun _ => true) (fun _ => Ok (PDict [("networking", PDict [("port", PInt 5555)])])).

(** A config file with two pools, the second one without a query. *)
Definition two_pools_config : config_env Empty_set :=
  Build_config_env None (Some "/etc/wrp.yaml") "/root/.chimaera/chimaera.yaml"
    (fun _ => true)
    (fun _ =>
       Ok (PDict
             [("compose",
               PList [PDict [("mod_name", PStr "bdev"); ("pool_name", PStr "ram");
                             ("pool_id", PStr "300.0"); ("pool_query", PStr "local")];
                      PDict [("mod_name", PStr "cte"); ("pool_name", PStr "core");
                             ("pool_id", PStr "512.0")]])])).

(** A worker list report whose second record is a number, and one whose
    record has text for [queued]. *)
Definition stray_number : list (string * val) :=
  [ ("c1", PList [PDict [("queued", PInt 1)]; PInt 5]) ].

Definition text_queued : list (string * val) :=
  [ ("c1", PList [PDict [("queued", PInt 1)]; PDict [("queued", PStr "many")]]) ].

Definition worker_reports_reversed : list (string * val) :=
  [ ("c1", PList [PDict [("blocked", PInt 1)];
                  PDict [("queued", PInt 2); ("processed", PInt 5)]]) ].

(** Node 2 is met first, then node 1, then node 2 again with a newer
    report. *)
Definition revisited_node : list (string * val) :=
  [ ("c1", PList [PDict [("node_id", PInt 2); ("event_id", PInt 1)];
                  PDict [("node_id", PInt 1); ("event_id", PInt 1)]]);
    ("c2", PList [PDict [("node_id", PInt 2); ("event_id", PInt 5)]]) ].

(** Two nodes reported once each, with event counters that are no
    numbers. *)
Definition odd_counters : list (string * val) :=
  [ ("a", PList [PDict [("event_id", PNone)]]);
    ("b", PList [PDict [("event_id", PStr "latest")]]) ].

(** Node 1 reported twice, the second time with a null event counter. *)
Definition null_counter : list (string * val) :=
  [ ("c1", PList [PDict [("node_id", PInt 1); ("event_id", PInt 5)];
                  PDict [("node_id", PInt 1); ("event_id", PNone)]]) ].

Definition two_reports_reversed : list (string * val) :=
  [ ("c2", PList [PDict [("node_id", PInt 1); ("event_id", PInt 7);
                         ("cpu_usage_pct", PInt 20)]]);
    ("c1", PList [PDict [("node_id", PInt 1); ("event_id", PInt 5);
                         ("cpu_usage_pct", PInt 10)]]) ].

(** Config files whose compose section is 0, and is the text of a name;
    and one that holds a list instead of a mapping. *)
Definition zero_compose_config : config_env Empty_set :=
  Build_config_env None None "/root/.chimaera/chimaera.yaml"
    (fun _ => true) (fun _ => Ok (PDict [("compose", PInt 0)])).

Definition text_compose_config : config_env Empty_set :=
  Build_config_env None None "/root/.chimaera/chimaera.yaml"
    (fun _ => true) (fun _ => Ok (PDict [("compose", PStr "bdev")])).

Definition list_config : config_env Empty_set :=
  Build_config_env None None "/root/.chimaera/chimaera.yaml"
    (fun _ => true) (fun _ => Ok (PList [PStr "compose"])).

(** An integer of 4301 digits, and a numeral of 4301 digits for the
    number 1. *)
Definition huge_node_id : Z := 2 ^ 14285.

Definition long_numeral : string :=
  string_of_list_ascii (repeat "0"%char 4300 ++ ["1"%char]).

(** Node 1 reported three times: without event counter, then with the
    counter 0, then with the counter -1. *)
Definition uncounted_first : list (string * val) :=
  [ ("c1", PList [PDict [("node_id", PInt 1); ("hostname", PStr "a")];
                  PDict [("node_id", PInt 1); ("event_id", PInt 0);
                         ("hostname", PStr "b")]]);
    ("c2", PList [PDict [("node_id", PInt 1); ("event_id", PInt (-1));
                         ("hostname", PStr "c")]]) ].

(** The file under the home directory exists and parses to nothing. *)
Definition null_home_config : config_env Empty_set :=
  Build_config_env None None "/root/.chimaera/chimaera.yaml"
    (fun _ => true) (fun _ => Ok PNone).

(** * Properties *)

(** ** Association lists *)

Section Assoc.

Variable A : Type.
Implicit Types (k : string) (v : A) (l : list (string * A)).

Lemma assoc_none_iff k l : assoc k l = None <-> ~ In k (map fst l).
Proof.
  induction l as [|[k' v'] r IH]; simpl.
  - tauto.
  - destruct (String.eqb_spec k k') as [->|Hne].
    + split; [discriminate | intros H; exfalso; apply H; now left].
    + rewrite IH. split.
      * intros H [Heq | Hin]; [now apply Hne | now apply H].
      * intros H Hin. apply H. now right.
Qed.

Lemma assoc_some_in k v l : assoc k l = Some v -> In (k, v) l.
Proof.
  induction l as [|[k' v'] r IH]; simpl; [discriminate|].
  destruct (String.eqb_spec k k') as [->|Hne].
  - intros [= ->]. now left.
  - intros H. right. now apply IH.
Qed.

Lemma in_assoc k v l : NoDup (map fst l) -> In (k, v) l -> assoc k l = Some v.
Proof.
  induction l as [|[k' v'] r IH]; simpl; [tauto|].
  intros Hnd [Heq | Hin]; inversion Hnd as [|? ? Hnotin Hnd']; subst.
  - injection Heq as -> ->. now rewrite String.eqb_refl.
  - destruct (String.eqb_spec k k') as [->|Hne].
    + exfalso. apply Hnotin. now apply (in_map fst _ _ Hin).
    + now apply IH.
Qed.

Lemma assoc_set_absent k v l : assoc k l = None -> assoc_set k v l = l ++ [(k, v)].
Proof.
  induction l as [|[k' v'] r IH]; simpl; [reflexivity|].
  destruct (String.eqb_spec k k') as [->|Hne]; [discriminate|].
  intros H. now rewrite IH.
Qed.

Lemma assoc_set_keys_present k v v0 l :
  assoc k l = Some v0 -> map fst (assoc_set k v l) = map fst l.
Proof.
  induction l as [|[k' v'] r IH]; simpl; [discriminate|].
  destruct (String.eqb_spec k k') as [->|Hne]; simpl; [reflexivity|].
  intros H. now rewrite IH.
Qed.

Lemma in_assoc_set k v l k1 v1 :
  NoDup (map fst l) ->
  In (k1, v1) (assoc_set k v l) ->
  (k1 = k /\ v1 = v) \/ (k1 <> k /\ In (k1, v1) l).
Proof.
  induction l as [|[k' v'] r IH]; simpl.
  - intros _ [[= <- <-] | []]. now left.
  - intros Hnd. inversion Hnd as [|? ? Hnotin Hnd']; subst.
    destruct (String.eqb_spec k k') as [->|Hne]; simpl.
    + intros [[= <- <-] | Hin]; [now left|].
      right. split; [|now right].
      intros ->. apply Hnotin. now apply (in_map fst _ _ Hin).
    + intros [[= <- <-] | Hin].
      * right. split; [congruence | now left].
      * destruct (IH Hnd' Hin) as [H | [H1 H2]]; [now left|].
        right. split; [assumption | now right].
Qed.

Lemma assoc_set_from k v l (kv : string * A) :
  In kv (assoc_set k v l) -> In kv l \/ kv = (k, v).
Proof.
  induction l as [|[k' v'] r IH]; simpl.
  - intros [<- | []]. now right.
  - destruct (k =? k')%string; simpl.
    + intros [<- | H]; [now right | left; now right].
    + intros [<- | H]; [left; now left|].
      destruct (IH H); [left; now right | now right].
Qed.

Lemma assoc_set_keys k v l k1 :
  In k1 (map fst (assoc_set k v l)) <-> In k1 (map fst l) \/ k1 = k.
Proof.
  induction l as [|[k' v'] r IH]; simpl.
  - intuition congruence.
  - destruct (String.eqb_spec k k') as [->|Hne]; simpl.
    + intuition congruence.
    + rewrite IH. tauto.
Qed.

Lemma assoc_set_nodup k v l :
  NoDup (map fst l) -> NoDup (map fst (assoc_set k v l)).
Proof.
  induction l as [|[k' v'] r IH]; simpl; intros Hnd.
  - constructor; [tauto | constructor].
  - inversion Hnd as [|? ? Hnotin Hnd']; subst.
    destruct (String.eqb_spec k k') as [->|Hne]; simpl.
    + now constructor.
    + constructor; [|now apply IH].
      rewrite assoc_set_keys. intros [H | H]; [now apply Hnotin | congruence].
Qed.

End Assoc.

(** ** Integers as text *)

Lemma lstrip_uint d :
  lstrip (NilEmpty.string_of_uint d) = NilEmpty.string_of_uint d.
Proof. now destruct d. Qed.

Lemma rstrip_uint d :
  rstrip (NilEmpty.string_of_uint d) = NilEmpty.string_of_uint d.
Proof.
  induction d; simpl NilEmpty.string_of_uint; [reflexivity|..];
    cbn [rstrip]; rewrite IHd; reflexivity.
Qed.

Lemma is_ascii_uint d : is_ascii_text (NilEmpty.string_of_uint d) = true.
Proof.
  induction d; simpl NilEmpty.string_of_uint; [reflexivity|..];
    cbn [is_ascii_text]; rewrite IHd; reflexivity.
Qed.

Lemma read_digits_acc d : forall acc,
  read_digits (NilEmpty.string_of_uint d) (Z.pos acc) true =
  Some (Z.pos (Pos.of_uint_acc d acc)).
Proof.
  induction d; intros acc; simpl NilEmpty.string_of_uint; [reflexivity|..];
    cbn [read_digits Pos.of_uint_acc];
    match goal with
    | |- context [digit_of ?c] =>
        let v := eval vm_compute in (digit_of c) in
        change (digit_of c) with v; cbv iota
    end;
    (match goal with
     | |- read_digits _ ?a true = _ =>
         match goal with
         | |- _ = Some (Z.pos (Pos.of_uint_acc _ ?b)) =>
             replace a with (Z.pos b) by lia
         end
     end);
    apply IHd.
Qed.

Lemma read_digits_uint d :
  read_digits (NilEmpty.string_of_uint d) 0 true = Some (Z.of_N (Pos.of_uint d)).
Proof.
  induction d; simpl NilEmpty.string_of_uint; [reflexivity|..];
    cbn [read_digits Pos.of_uint];
    match goal with
    | |- context [digit_of ?c] =>
        let v := eval vm_compute in (digit_of c) in
        change (digit_of c) with v; cbv iota
    end;
    [exact IHd | apply (read_digits_acc d) ..].
Qed.

Lemma read_digits_start d acc :
  d <> Decimal.Nil ->
  read_digits (NilEmpty.string_of_uint d) acc false =
  read_digits (NilEmpty.string_of_uint d) acc true.
Proof. destruct d; [congruence | reflexivity ..]. Qed.

Lemma parse_digits_uint d :
  d <> Decimal.Nil ->
  parse_digits (NilEmpty.string_of_uint d) = Some (Z.of_N (Pos.of_uint d)).
Proof.
  intros Hd. unfold parse_digits. rewrite rstrip_uint, lstrip_uint.
  rewrite <- read_digits_uint, <- (read_digits_start d 0 Hd).
  destruct d; [congruence | reflexivity ..].
Qed.

Lemma nilzero_uint d :
  d <> Decimal.Nil -> NilZero.string_of_uint d = NilEmpty.string_of_uint d.
Proof. destruct d; [congruence | reflexivity ..]. Qed.

(** The grammar reads the numeral of an integer back as that integer. *)
Lemma parse_digits_decimal z : parse_digits (decimal z) = Some z.
Proof.
  destruct z as [|p|p]; [reflexivity| |];
    pose proof (Unsigned.to_uint_nonnil p) as Hnil;
    unfold decimal; simpl Z.to_int; unfold NilZero.string_of_int;
    rewrite (nilzero_uint _ Hnil).
  - now rewrite (parse_digits_uint _ Hnil), Unsigned.of_to.
  - assert (Hs : parse_digits (String "-" (NilEmpty.string_of_uint (Pos.to_uint p))) =
                 option_map Z.opp
                   (read_digits (NilEmpty.string_of_uint (Pos.to_uint p)) 0 false)).
    { unfold parse_digits. cbn [rstrip]. rewrite rstrip_uint. reflexivity. }
    now rewrite Hs, (read_digits_start _ 0 Hnil), read_digits_uint, Unsigned.of_to.
Qed.

Lemma is_ascii_decimal z : is_ascii_text (decimal z) = true.
Proof.
  destruct z as [|p|p]; [reflexivity| |];
    pose proof (Unsigned.to_uint_nonnil p) as Hnil;
    unfold decimal; simpl Z.to_int; unfold NilZero.string_of_int;
    rewrite (nilzero_uint _ Hnil).
  - apply is_ascii_uint.
  - cbn [is_ascii_text]. now rewrite is_ascii_uint.
Qed.

(** Within the digit limit [int(str(z))] is [z]. *)
Lemma parse_int_decimal limit z :
  int_fits limit z = true -> parse_int limit (decimal z) = Some z.
Proof.
  unfold int_fits, parse_int. intros Hfits.
  apply negb_true_iff in Hfits. rewrite Hfits. apply parse_digits_decimal.
Qed.

Lemma space_not_digit c : is_space c = true -> digit_of c = None.
Proof.
  unfold is_space, digit_of.
  destruct ((48 <=? Z.of_N (N_of_ascii c)) && (Z.of_N (N_of_ascii c) <=? 57)) eqn:Hd;
    [|reflexivity].
  intros Hs. exfalso.
  apply andb_true_iff in Hd as [H1 H2]. apply Z.leb_le in H1, H2.
  apply orb_true_iff in Hs as [Hs | Hs].
  - apply andb_true_iff in Hs as [_ H3]. apply Z.leb_le in H3. lia.
  - apply Z.eqb_eq in Hs. lia.
Qed.

Lemma count_digits_nonneg s : 0 <= count_digits s.
Proof.
  induction s as [|c r IH]; simpl; [lia|]. destruct (digit_of c); lia.
Qed.

Lemma count_digits_lstrip s : count_digits (lstrip s) = count_digits s.
Proof.
  induction s as [|c r IH]; simpl; [reflexivity|].
  destruct (is_space c) eqn:Hs; [|reflexivity].
  now rewrite (space_not_digit _ Hs), IH.
Qed.

Lemma count_digits_rstrip s : count_digits (rstrip s) = count_digits s.
Proof.
  induction s as [|c r IH]; simpl; [reflexivity|].
  destruct (is_space c) eqn:Hs; simpl.
  - destruct (String.eqb_spec (rstrip r) "") as [He|Hne]; simpl.
    + rewrite (space_not_digit _ Hs), <- IH, He. reflexivity.
    + now rewrite IH.
  - now rewrite IH.
Qed.

Lemma read_digits_some s : forall acc seen z,
  read_digits s acc seen = Some z -> 0 < count_digits s \/ (s = EmptyString).
Proof.
  induction s as [|c r IH]; intros acc seen z H; [now right|]. left.
  simpl in H |- *. pose proof (count_digits_nonneg r).
  destruct (digit_of c) as [d|]; [lia|].
  destruct (Ascii.eqb c "_" && seen); [|discriminate].
  destruct (IH _ _ _ H) as [Hpos | ->]; [lia | discriminate].
Qed.

(** Text without a digit is no number. *)
Lemma parse_digits_no_digit s : count_digits s = 0 -> parse_digits s = None.
Proof.
  intros Hzero. unfold parse_digits.
  rewrite <- count_digits_rstrip, <- count_digits_lstrip in Hzero.
  destruct (lstrip (rstrip s)) as [|c r]; [reflexivity|].
  assert (Hr : count_digits r = 0).
  { simpl in Hzero. pose proof (count_digits_nonneg r).
    destruct (digit_of c); lia. }
  assert (Hnone : forall acc, read_digits r acc false = None).
  { intros acc. destruct (read_digits r acc false) as [z|] eqn:H; [|reflexivity].
    destruct (read_digits_some _ _ _ _ H) as [Hpos | ->]; [lia | discriminate]. }
  destruct (Ascii.eqb c "+"); [apply Hnone|].
  destruct (Ascii.eqb c "-"); [now rewrite Hnone|].
  destruct (read_digits (String c r) 0 false) as [z|] eqn:H; [|reflexivity].
  destruct (read_digits_some _ _ _ _ H) as [Hpos | Hempty]; [lia | discriminate].
Qed.

Lemma space_numeral_char c : is_space c = true -> numeral_char c = true.
Proof.
  intros Hs. unfold numeral_char. rewrite (space_not_digit _ Hs), Hs.
  now rewrite !orb_true_r.
Qed.

Lemma numeral_text_lstrip s : numeral_text (lstrip s) = true -> numeral_text s = true.
Proof.
  induction s as [|c r IH]; simpl; [reflexivity|].
  destruct (is_space c) eqn:Hs; [|exact (fun H => H)].
  intros H. now rewrite (space_numeral_char _ Hs), IH.
Qed.

Lemma numeral_text_rstrip s : numeral_text (rstrip s) = true -> numeral_text s = true.
Proof.
  induction s as [|c r IH]; simpl; [reflexivity|].
  destruct (is_space c) eqn:Hs; simpl.
  - destruct (String.eqb_spec (rstrip r) "") as [He|Hne]; simpl.
    + intros _. rewrite (space_numeral_char _ Hs), IH; [reflexivity|].
      now rewrite He.
    + intros H. apply andb_true_iff in H as [Hc Hr]. now rewrite Hc, IH.
  - intros H. apply andb_true_iff in H as [Hc Hr]. now rewrite Hc, IH.
Qed.

Lemma read_digits_numeral s : forall acc seen z,
  read_digits s acc seen = Some z -> numeral_text s = true.
Proof.
  induction s as [|c r IH]; intros acc seen z H; [reflexivity|].
  simpl in H |- *. unfold numeral_char.
  destruct (digit_of c) as [d|]; [exact (IH _ _ _ H)|].
  destruct (Ascii.eqb c "_"); simpl in H; [|discriminate].
  destruct seen; [|discriminate].
  rewrite (IH _ _ _ H). now rewrite !orb_true_r.
Qed.

(** Text with a character that no number is written with is no number. *)
Lemma parse_digits_numeral s z : parse_digits s = Some z -> numeral_text s = true.
Proof.
  unfold parse_digits. intros H.
  apply numeral_text_rstrip, numeral_text_lstrip.
  destruct (lstrip (rstrip s)) as [|c r]; [discriminate|].
  destruct (Ascii.eqb c "+") eqn:Hplus.
  { simpl. unfold numeral_char. rewrite Hplus, (read_digits_numeral _ _ _ _ H).
    now destruct (digit_of c). }
  destruct (Ascii.eqb c "-") eqn:Hminus.
  { destruct (read_digits r 0 false) as [z'|] eqn:Hr; [|discriminate].
    simpl. unfold numeral_char. rewrite Hminus, (read_digits_numeral _ _ _ _ Hr).
    destruct (digit_of c); [reflexivity | now rewrite orb_true_r]. }
  exact (read_digits_numeral _ _ _ _ H).
Qed.

(** ** The node loops *)

Section Properties.

Variable pyfloat : Type.
Variable rt : runtime pyfloat.

Implicit Types (e prev : record pyfloat) (nodes : node_table pyfloat).
Implicit Types (seen cands : list (string * record pyfloat)).
Implicit Types (raw : list (string * pyval pyfloat)).

Lemma file_all_app (todo1 todo2 : list (result string * record pyfloat)) nodes :
  file_all rt (todo1 ++ todo2) nodes =
  (nodes' <- file_all rt todo1 nodes ;; file_all rt todo2 nodes').
Proof.
  revert nodes. induction todo1 as [|[[k|x] e] r IH]; intros nodes; simpl.
  - reflexivity.
  - destruct (file_under rt k e nodes) as [nodes1|x]; simpl; [apply IH | reflexivity].
  - reflexivity.
Qed.

Lemma file_each_app cands1 cands2 nodes :
  file_each rt (cands1 ++ cands2) nodes =
  (nodes' <- file_each rt cands1 nodes ;; file_each rt cands2 nodes').
Proof.
  revert nodes. induction cands1 as [|[k e] r IH]; intros nodes; simpl.
  - reflexivity.
  - destruct (file_under rt k e nodes) as [nodes1|x]; simpl; [apply IH | reflexivity].
Qed.

Lemma scan_entries_file_all cid (entries : list (pyval pyfloat)) nodes :
  scan_entries rt cid entries nodes =
  file_all rt
    (map (fun e => (node_key rt cid e, e)) (node_records (PList entries))) nodes.
Proof.
  revert nodes. induction entries as [|entry rest IH]; intros nodes.
  - reflexivity.
  - destruct entry; simpl; try apply IH.
    unfold keep_latest.
    destruct (node_key rt cid d) as [k|x]; simpl; [|reflexivity].
    destruct (file_under rt k d nodes) as [nodes1|x]; simpl;
      [apply IH | reflexivity].
Qed.

(** The two loops of [get_topology] visit the records in order. *)
Lemma collect_nodes_file_all raw nodes :
  collect_nodes rt raw nodes = file_all rt (visits rt raw) nodes.
Proof.
  revert nodes. induction raw as [|[cid report] rest IH]; intros nodes.
  - reflexivity.
  - unfold visits. simpl flat_map. fold (visits rt rest).
    rewrite file_all_app.
    destruct report; simpl; try apply IH.
    rewrite scan_entries_file_all. simpl node_records.
    match goal with
    | |- bind ?m _ = bind ?m _ => destruct m as [nodes1|x]; simpl
    end; [apply IH | reflexivity].
Qed.

(** Once the identities are computed the loops are [file_each]. *)
Lemma file_all_keyed cands nodes :
  file_all rt (map keyed cands) nodes = file_each rt cands nodes.
Proof.
  revert nodes. induction cands as [|[k e] r IH]; intros nodes; simpl.
  - reflexivity.
  - destruct (file_under rt k e nodes) as [nodes1|x]; simpl; [apply IH | reflexivity].
Qed.

Lemma settled_keyed (todo : list (result string * record pyfloat)) :
  Forall (fun v => has_text v = true) todo ->
  todo =
  map keyed
    (flat_map (fun v => match fst v with Ok k => [(k, snd v)] | Raise _ => [] end)
       todo).
Proof.
  induction 1 as [|[[k|x] e] r Hv _ IH]; simpl; [reflexivity | | discriminate].
  unfold keyed at 1. simpl. now rewrite <- IH.
Qed.

Lemma file_all_has_text (todo : list (result string * record pyfloat)) :
  forall nodes nodes',
  file_all rt todo nodes = Ok nodes' ->
  Forall (fun v => has_text v = true) todo.
Proof.
  induction todo as [|[[k|x] e] r IH]; intros nodes nodes' H; simpl in H.
  - constructor.
  - destruct (file_under rt k e nodes) as [nodes1|x]; simpl in H; [|discriminate].
    constructor; [reflexivity | exact (IH _ _ H)].
  - discriminate.
Qed.

(** When every identity has a text the loops run over the candidates. *)
Lemma collect_nodes_identified raw nodes :
  Forall (fun v => has_text v = true) (visits rt raw) ->
  collect_nodes rt raw nodes = file_each rt (candidates rt raw) nodes.
Proof.
  intros Hall. rewrite collect_nodes_file_all, <- file_all_keyed.
  unfold candidates. now rewrite <- settled_keyed.
Qed.

(** When the loops complete every identity had a text. *)
Lemma collect_nodes_ok raw nodes nodes' :
  collect_nodes rt raw nodes = Ok nodes' ->
  Forall (fun v => has_text v = true) (visits rt raw) /\
  file_each rt (candidates rt raw) nodes = Ok nodes'.
Proof.
  intros H. pose proof H as Hfile. rewrite collect_nodes_file_all in Hfile.
  pose proof (file_all_has_text _ _ _ Hfile) as Htext.
  split; [assumption|]. now rewrite <- (collect_nodes_identified _ _ Htext).
Qed.

Lemma with_key_app k seen cands :
  with_key k (seen ++ cands) = with_key k seen ++ with_key k cands.
Proof. unfold with_key. now rewrite filter_app, map_app. Qed.

Lemma with_key_absent k seen : ~ In k (map fst seen) -> with_key k seen = [].
Proof.
  induction seen as [|[k' e'] r IH]; simpl; [reflexivity|].
  intros H. unfold with_key. simpl.
  destruct (String.eqb_spec k' k) as [->|Hne].
  - exfalso. apply H. now left.
  - apply IH. intros Hin. apply H. now right.
Qed.

Lemma in_with_key k e seen : In e (with_key k seen) -> In (k, e) seen.
Proof.
  unfold with_key. intros H. apply in_map_iff in H as [[k' e'] [Heq Hin]].
  simpl in Heq. subst e'. apply filter_In in Hin as [Hin Hk]. simpl in Hk.
  apply String.eqb_eq in Hk. now subst k'.
Qed.

Lemma with_key_one k k' e :
  with_key k [(k', e)] = if (k' =? k)%string then [e] else [].
Proof. unfold with_key. simpl. now destruct (k' =? k)%string. Qed.

Lemma NoDup_snoc (k : string) (l : list string) :
  NoDup l -> ~ In k l -> NoDup (l ++ [k]).
Proof.
  induction l as [|x r IH]; simpl; intros Hnd Hnotin.
  - constructor; [tauto | constructor].
  - inversion Hnd as [|? ? Hx Hr]; subst. constructor.
    + rewrite in_app_iff. simpl. intros [H | [H | []]]; [tauto|].
      apply Hnotin. now left.
    + apply IH; [assumption|]. intros H. apply Hnotin. now right.
Qed.

Lemma py_gt_events e prev :
  int_event e = true -> int_event prev = true ->
  py_gt rt (event_id e) (event_id prev) = Ok (event_num prev <? event_num e).
Proof.
  unfold int_event, event_num.
  destruct (event_id e), (event_id prev); simpl; congruence.
Qed.

Lemma reconciled_nil : reconciled (@nil (string * record pyfloat)) [].
Proof.
  repeat split; simpl; try tauto. constructor.
Qed.

(** One visit keeps the table reconciled with the records seen so far. *)
Lemma file_under_reconciled seen nodes k e :
  reconciled seen nodes ->
  Forall (fun c => int_event (snd c) = true) seen ->
  int_event e = true ->
  exists nodes',
    file_under rt k e nodes = Ok nodes' /\ reconciled (seen ++ [(k, e)]) nodes'.
Proof.
  intros (Hnd & Hkeys & Hbest) Hseen He. unfold file_under.
  destruct (assoc k nodes) as [prev|] eqn:Hassoc.
  - pose proof (assoc_some_in _ _ _ _ Hassoc) as Hprev.
    destruct (Hbest _ _ Hprev) as (before & after & Heq & Hlt & Hle).
    assert (Hpint : int_event prev = true).
    { assert (Hin : In (k, prev) seen).
      { apply in_with_key. rewrite Heq. apply in_elt. }
      rewrite Forall_forall in Hseen. exact (Hseen _ Hin). }
    rewrite (py_gt_events _ _ He Hpint). simpl.
    assert (Hk : In k (map fst nodes)) by exact (in_map fst _ _ Hprev).
    destruct (event_num prev <? event_num e) eqn:Hnewer.
    + apply Z.ltb_lt in Hnewer.
      eexists. split; [reflexivity|]. repeat split.
      * now rewrite (assoc_set_keys_present _ _ _ _ _ Hassoc).
      * rewrite (assoc_set_keys_present _ _ _ _ _ Hassoc), map_app, in_app_iff.
        rewrite Hkeys. tauto.
      * rewrite (assoc_set_keys_present _ _ _ _ _ Hassoc), map_app, in_app_iff.
        simpl. intros [H | [<- | []]]; [now apply Hkeys | assumption].
      * intros k1 e1 Hin. rewrite with_key_app, with_key_one.
        destruct (in_assoc_set _ _ _ _ _ _ Hnd Hin) as [[-> ->] | [Hne Hold]].
        -- rewrite String.eqb_refl, Heq.
           exists (before ++ prev :: after), []. repeat split.
           ++ apply Forall_app. split.
              ** eapply Forall_impl; [|exact Hlt]. simpl. lia.
              ** constructor; [assumption|].
                 eapply Forall_impl; [|exact Hle]. simpl. lia.
           ++ constructor.
        -- destruct (String.eqb_spec k k1) as [->|_]; [congruence|].
           rewrite app_nil_r. now apply Hbest.
    + apply Z.ltb_ge in Hnewer.
      eexists. split; [reflexivity|]. repeat split.
      * assumption.
      * rewrite map_app, in_app_iff, Hkeys. tauto.
      * rewrite map_app, in_app_iff. simpl.
        intros [H | [<- | []]]; [now apply Hkeys | assumption].
      * intros k1 e1 Hin. rewrite with_key_app, with_key_one.
        destruct (String.eqb_spec k k1) as [<-|_].
        -- assert (e1 = prev) as ->.
           { pose proof (in_assoc _ _ _ _ Hnd Hin) as H. congruence. }
           rewrite Heq. exists before, (after ++ [e]). repeat split.
           ++ now rewrite <- app_assoc.
           ++ assumption.
           ++ apply Forall_app. split; [assumption|].
              constructor; [assumption | constructor].
        -- rewrite app_nil_r. now apply Hbest.
  - pose proof (proj1 (assoc_none_iff _ _ _) Hassoc) as Hfresh.
    rewrite (assoc_set_absent _ _ _ _ Hassoc).
    eexists. split; [reflexivity|]. repeat split.
    + rewrite map_app. simpl. now apply NoDup_snoc.
    + rewrite !map_app, !in_app_iff, Hkeys. tauto.
    + rewrite !map_app, !in_app_iff, Hkeys. tauto.
    + intros k1 e1 Hin. rewrite with_key_app, with_key_one.
      apply in_app_or in Hin as [Hold | [[= <- <-] | []]].
      * destruct (String.eqb_spec k k1) as [<-|_].
        -- exfalso. apply Hfresh. exact (in_map fst _ _ Hold).
        -- rewrite app_nil_r. now apply Hbest.
      * rewrite String.eqb_refl, with_key_absent.
        -- exists [], []. repeat split; constructor.
        -- intros H. apply Hfresh. now apply Hkeys.
Qed.

Lemma file_each_reconciled cands : forall seen nodes,
  reconciled seen nodes ->
  Forall (fun c => int_event (snd c) = true) seen ->
  Forall (fun c => int_event (snd c) = true) cands ->
  exists nodes',
    file_each rt cands nodes = Ok nodes' /\ reconciled (seen ++ cands) nodes'.
Proof.
  induction cands as [|[k e] rest IH]; intros seen nodes Hrec Hseen Hcands.
  - exists nodes. rewrite app_nil_r. now split.
  - inversion Hcands as [|? ? He Hrest]; subst. simpl in He.
    destruct (file_under_reconciled _ _ k _ Hrec Hseen He) as (nodes1 & Hstep & Hrec1).
    simpl. rewrite Hstep. simpl.
    destruct (IH (seen ++ [(k, e)]) nodes1 Hrec1) as (nodes2 & Hall & Hrec2).
    + apply Forall_app. split; [assumption | now constructor].
    + assumption.
    + exists nodes2. split; [assumption|]. now rewrite <- app_assoc in Hrec2.
Qed.

Lemma file_under_cases k e nodes nodes' :
  file_under rt k e nodes = Ok nodes' ->
  nodes' = assoc_set k e nodes \/ (nodes' = nodes /\ In k (map fst nodes)).
Proof.
  unfold file_under. destruct (assoc k nodes) as [prev|] eqn:Hassoc.
  - destruct (py_gt rt (event_id e) (event_id prev)) as [[|]|x]; simpl;
      intros H; try discriminate; injection H as <-; [now left|].
    right. split; [reflexivity|].
    exact (in_map fst _ _ (assoc_some_in _ _ _ _ Hassoc)).
  - intros [= <-]. now left.
Qed.

(** Whatever the loops leave in the table was put there from a record
    they visited, under that record's identity. *)
Lemma file_each_from cands : forall nodes nodes',
  file_each rt cands nodes = Ok nodes' ->
  forall kv, In kv nodes' -> In kv nodes \/ In kv cands.
Proof.
  induction cands as [|[k e] rest IH]; intros nodes nodes' Hall kv Hin; simpl in Hall.
  - injection Hall as <-. now left.
  - destruct (file_under rt k e nodes) as [nodes1|x] eqn:Hstep; simpl in Hall;
      [|discriminate].
    destruct (IH _ _ Hall kv Hin) as [H1 | Hrest]; [|right; now right].
    destruct (file_under_cases _ _ _ _ Hstep) as [-> | [-> _]]; [|now left].
    destruct (assoc_set_from _ _ _ _ _ H1) as [H | ->];
      [now left | right; now left].
Qed.

Lemma in_visited_records raw cid e :
  In (cid, e) (visited_records raw) <->
  exists entries, In (cid, PList entries) raw /\ In (PDict e) entries.
Proof.
  unfold visited_records. rewrite in_flat_map. split.
  - intros ([cid' report] & Hraw & Hin). simpl in Hin.
    apply in_map_iff in Hin as (e' & [= <- <-] & Hrec).
    destruct report; simpl in Hrec; try contradiction.
    apply in_flat_map in Hrec as (entry & Hentry & Hd).
    destruct entry; simpl in Hd; try contradiction.
    destruct Hd as [<- | []]. now exists l.
  - intros (entries & Hraw & Hentry).
    exists (cid, PList entries). split; [assumption|]. simpl.
    apply in_map_iff. exists e. split; [reflexivity|].
    apply in_flat_map. exists (PDict e). split; [assumption | now left].
Qed.

Lemma visits_visited raw :
  visits rt raw =
  map (fun ce => (node_key rt (fst ce) (snd ce), snd ce)) (visited_records raw).
Proof.
  unfold visits, visited_records. induction raw as [|item rest IH]; simpl.
  - reflexivity.
  - now rewrite map_app, map_map, IH.
Qed.

Lemma in_candidates raw k e :
  In (k, e) (candidates rt raw) <->
  exists cid, In (cid, e) (visited_records raw) /\ node_key rt cid e = Ok k.
Proof.
  unfold candidates. rewrite visits_visited, in_flat_map. split.
  - intros ([key e'] & Hin & Hk). simpl in Hk.
    apply in_map_iff in Hin as ([cid e''] & [= <- <-] & Hvis). simpl in *.
    destruct (node_key rt cid e'') as [k'|x] eqn:Hkey; [|contradiction].
    destruct Hk as [[= <- <-] | []]. now exists cid.
  - intros (cid & Hvis & Hkey).
    exists (Ok k, e). split.
    + apply in_map_iff. exists (cid, e). simpl. now rewrite Hkey.
    + now left.
Qed.

Lemma node_stats_each host nodes : forall stats,
  node_stats rt host nodes = Ok stats ->
  Forall2 (fun kv stat => node_stat rt host (fst kv) (snd kv) = Ok stat) nodes stats.
Proof.
  induction nodes as [|[k e] rest IH]; intros stats H; simpl in H.
  - injection H as <-. constructor.
  - destruct (node_stat rt host k e) as [stat|x] eqn:Hstat; simpl in H; [|discriminate].
    destruct (node_stats rt host rest) as [stats'|x]; simpl in H; [|discriminate].
    injection H as <-. constructor; [assumption | now apply IH].
Qed.

Lemma get_topology_ok raw host resp :
  get_topology rt host (Fetched raw) = Ok resp ->
  exists nodes stats,
    collect_nodes rt raw [] = Ok nodes /\
    node_stats rt host nodes = Ok stats /\
    resp = (PDict [("nodes", PList stats)], 200).
Proof.
  unfold get_topology. intros H.
  destruct (collect_nodes rt raw []) as [nodes|x]; simpl in H; [|discriminate].
  destruct (node_stats rt host nodes) as [stats|x] eqn:Hs; simpl in H; [|discriminate].
  injection H as <-. exists nodes, stats. repeat split. exact Hs.
Qed.

(** Whatever the comparisons answer, the table holds no identity twice
    and holds the identities of the records visited. *)
Lemma file_each_keys cands : forall seen nodes nodes',
  NoDup (map fst nodes) ->
  (forall k, In k (map fst nodes) <-> In k (map fst seen)) ->
  file_each rt cands nodes = Ok nodes' ->
  NoDup (map fst nodes') /\
  (forall k, In k (map fst nodes') <-> In k (map fst (seen ++ cands))).
Proof.
  induction cands as [|[k e] rest IH]; intros seen nodes nodes' Hnd Hkeys Hall;
    simpl in Hall.
  - injection Hall as <-. rewrite app_nil_r. now split.
  - destruct (file_under rt k e nodes) as [nodes1|x] eqn:Hstep; simpl in Hall;
      [|discriminate].
    replace (seen ++ (k, e) :: rest) with ((seen ++ [(k, e)]) ++ rest)
      by now rewrite <- app_assoc.
    apply (IH (seen ++ [(k, e)]) nodes1 nodes'); [| |assumption].
    + destruct (file_under_cases _ _ _ _ Hstep) as [-> | [-> _]];
        [now apply assoc_set_nodup | assumption].
    + intros k1. rewrite map_app, in_app_iff. simpl.
      destruct (file_under_cases _ _ _ _ Hstep) as [-> | [-> Hin]].
      * rewrite assoc_set_keys, Hkeys. intuition congruence.
      * rewrite Hkeys. split; [tauto|].
        intros [H | [<- | []]]; [assumption | now apply Hkeys].
Qed.

(** *** The code's identity and counter against the stated ones *)

Lemma stated_identity_key cid e k :
  stated_identity (int_max_str_digits rt) cid e = Some k ->
  node_key rt cid e = Ok k.
Proof.
  unfold stated_identity, node_key, dict_get.
  destruct (assoc "node_id" e) as [[| | z| | t| |]|]; simpl; try discriminate.
  - now intros [= ->].
  - destruct (int_fits (int_max_str_digits rt) z); [|discriminate].
    now intros [= ->].
  - now intros [= ->].
  - now intros [= ->].
Qed.

Lemma stated_counter_event e z :
  stated_counter e = Some z -> as_int (event_id e) = Some z.
Proof.
  unfold stated_counter, event_id, dict_get_default.
  destruct (assoc "event_id" e) as [[| | z'| | | |]|]; simpl; congruence.
Qed.

Lemma reconcilable_identity (ce : string * record pyfloat) :
  reconcilable (int_max_str_digits rt) ce = true ->
  exists k z,
    stated_identity (int_max_str_digits rt) (fst ce) (snd ce) = Some k /\
    stated_counter (snd ce) = Some z.
Proof.
  unfold reconcilable.
  destruct (stated_identity _ _ _) as [k|]; [|discriminate].
  destruct (stated_counter _) as [z|]; [|discriminate].
  intros _. now exists k, z.
Qed.

Lemma reconcilable_visits raw :
  Forall (fun ce => reconcilable (int_max_str_digits rt) ce = true)
         (visited_records raw) ->
  Forall (fun v => has_text v = true) (visits rt raw).
Proof.
  rewrite visits_visited. intros H. apply Forall_map.
  eapply Forall_impl; [|exact H]. intros ce Hce.
  destruct (reconcilable_identity _ Hce) as (k & z & Hk & _).
  unfold has_text. simpl. now rewrite (stated_identity_key _ _ _ Hk).
Qed.

Lemma reconcilable_candidates raw k e :
  Forall (fun ce => reconcilable (int_max_str_digits rt) ce = true)
         (visited_records raw) ->
  In (k, e) (candidates rt raw) ->
  int_event e = true /\ event_num e = counter_num e /\
  exists cid,
    In (cid, e) (visited_records raw) /\
    stated_identity (int_max_str_digits rt) cid e = Some k.
Proof.
  intros H Hin. apply in_candidates in Hin as (cid & Hvis & Hkey).
  rewrite Forall_forall in H.
  destruct (reconcilable_identity _ (H _ Hvis)) as (k' & z & Hk & Hz).
  simpl in Hk, Hz. pose proof (stated_identity_key _ _ _ Hk) as Hkey'.
  rewrite Hkey in Hkey'. injection Hkey' as ->.
  pose proof (stated_counter_event _ _ Hz) as Hev.
  unfold int_event, event_num, counter_num. rewrite Hev, Hz.
  repeat split. now exists cid.
Qed.

Lemma reconcilable_with_key k (visited : list (string * record pyfloat)) :
  Forall (fun ce => reconcilable (int_max_str_digits rt) ce = true) visited ->
  with_key k
    (flat_map (fun v => match fst v with Ok k' => [(k', snd v)] | Raise _ => [] end)
       (map (fun ce => (node_key rt (fst ce) (snd ce), snd ce)) visited)) =
  reports_of (int_max_str_digits rt) k visited.
Proof.
  unfold with_key, reports_of.
  induction 1 as [|[cid e] rest Hce _ IH]; simpl; [reflexivity|].
  destruct (reconcilable_identity _ Hce) as (k' & z & Hk & _). simpl in Hk.
  rewrite (stated_identity_key _ _ _ Hk), Hk. simpl.
  destruct (k' =? k)%string; simpl; now rewrite IH.
Qed.

(** C1. Identity and freshness are read here as the specification
    words them ([stated_identity], [stated_counter]), apart from the
    code's own [node_key] and [event_id].

    For every mapping on which the node loops complete, the table holds
    no identity twice, holds the identity of every record that has one,
    every record it holds is a reported record filed under its own
    identity, and the answer of [get_topology] has one element per entry
    of the table, in order.

    When every reported record has an identity and an integer or missing
    [event_id] (missing counts as 0), the loops do complete, the table
    holds exactly the identities of the records, and the record kept for
    an identity is, among the records of that identity in the order of
    the visit, the first with the greatest [event_id]: a later record
    replaces it only when strictly greater. *)
Theorem reconciler_keeps_newest raw :
  (forall nodes,
     collect_nodes rt raw [] = Ok nodes ->
     NoDup (map fst nodes) /\
     (forall cid e k,
        In (cid, e) (visited_records raw) ->
        stated_identity (int_max_str_digits rt) cid e = Some k ->
        In k (map fst nodes)) /\
     (forall k e,
        In (k, e) nodes ->
        exists cid,
          In (cid, e) (visited_records raw) /\ node_key rt cid e = Ok k /\
          (forall k',
             stated_identity (int_max_str_digits rt) cid e = Some k' -> k' = k)) /\
     (forall host resp,
        get_topology rt host (Fetched raw) = Ok resp ->
        exists stats,
          resp = (PDict [("nodes", PList stats)], 200) /\
          Forall2 (fun kv stat => node_stat rt host (fst kv) (snd kv) = Ok stat)
                  nodes stats)) /\
  (Forall (fun ce => reconcilable (int_max_str_digits rt) ce = true)
          (visited_records raw) ->
   exists nodes,
     collect_nodes rt raw [] = Ok nodes /\
     (forall k,
        In k (map fst nodes) <->
        exists cid e,
          In (cid, e) (visited_records raw) /\
          stated_identity (int_max_str_digits rt) cid e = Some k) /\
     (forall k e, In (k, e) nodes ->
        exists before after,
          reports_of (int_max_str_digits rt) k (visited_records raw) =
            before ++ e :: after /\
          Forall (fun e' => counter_num e' < counter_num e) before /\
          Forall (fun e' => counter_num e' <= counter_num e) after)).
Proof.
  split.
  - intros nodes Hall.
    destruct (collect_nodes_ok _ _ _ Hall) as [_ Hfile].
    destruct (file_each_keys _ [] [] nodes (NoDup_nil _) (fun k => iff_refl _) Hfile)
      as [Hnd Hkeys].
    simpl in Hkeys.
    split; [assumption|]. split; [|split].
    + intros cid e k Hvis Hid. apply Hkeys.
      apply (in_map fst _ (k, e)). apply in_candidates.
      exists cid. split; [assumption | now apply stated_identity_key].
    + intros k e Hin.
      destruct (file_each_from _ _ _ Hfile _ Hin) as [[] | H].
      apply in_candidates in H as (cid & Hvis & Hkey).
      exists cid. split; [assumption|]. split; [assumption|].
      intros k' Hid. apply stated_identity_key in Hid. congruence.
    + intros host resp Hresp.
      destruct (get_topology_ok _ _ _ Hresp) as (nodes' & stats & Hc & Hs & ->).
      rewrite Hall in Hc. injection Hc as <-.
      exists stats. split; [reflexivity | now apply node_stats_each].
  - intros Hrec.
    pose proof (reconcilable_visits _ Hrec) as Htext.
    assert (Hint : Forall (fun c => int_event (snd c) = true) (candidates rt raw)).
    { apply Forall_forall. intros [k e] Hin.
      exact (proj1 (reconcilable_candidates _ _ _ Hrec Hin)). }
    destruct (file_each_reconciled (candidates rt raw) [] [] reconciled_nil
                (Forall_nil _) Hint) as (nodes & Hall & _ & Hkeys & Hbest).
    simpl in Hkeys, Hbest.
    exists nodes. split; [now rewrite (collect_nodes_identified _ _ Htext)|].
    split.
    + intros k. rewrite Hkeys. split.
      * intros Hin. apply in_map_iff in Hin as ([k' e] & Hk & Hin).
        simpl in Hk. subst k'.
        destruct (reconcilable_candidates _ _ _ Hrec Hin) as (_ & _ & cid & Hvis & Hid).
        now exists cid, e.
      * intros (cid & e & Hvis & Hid).
        apply (in_map fst _ (k, e)). apply in_candidates.
        exists cid. split; [assumption | now apply stated_identity_key].
    + intros k e Hin.
      destruct (Hbest _ _ Hin) as (before & after & Heq & Hlt & Hle).
      assert (Hnum : forall e', In e' (with_key k (candidates rt raw)) ->
                                event_num e' = counter_num e').
      { intros e' He'. apply in_with_key in He'.
        exact (proj1 (proj2 (reconcilable_candidates _ _ _ Hrec He'))). }
      exists before, after. split.
      * rewrite <- Heq. unfold candidates. rewrite visits_visited.
        symmetry. now apply reconcilable_with_key.
      * rewrite Heq in Hnum.
        assert (He : event_num e = counter_num e) by (apply Hnum, in_elt).
        rewrite <- He. split; apply Forall_forall; intros e' He';
          rewrite <- (Hnum e') by (apply in_or_app; (now left) || (right; now right)).
        -- rewrite Forall_forall in Hlt. exact (Hlt _ He').
        -- rewrite Forall_forall in Hle. exact (Hle _ He').
Qed.

(** ** The worker loop *)

Lemma add_report_records (workers : list (pyval pyfloat)) data :
  add_report workers data = workers ++ worker_records data.
Proof. destruct data; simpl; now rewrite ?app_nil_r. Qed.

Lemma fold_add_report raw : forall workers : list (pyval pyfloat),
  fold_left (fun ws item => add_report ws (snd item)) raw workers =
  workers ++ flat_map (fun item => worker_records (snd item)) raw.
Proof.
  induction raw as [|item rest IH]; intros workers; simpl.
  - now rewrite app_nil_r.
  - now rewrite IH, add_report_records, <- app_assoc.
Qed.

(** The flattened list is the reports' records, one container after the
    other. *)
Lemma flatten_workers_records raw :
  flatten_workers raw = flat_map (fun item => worker_records (snd item)) raw.
Proof. unfold flatten_workers. now rewrite fold_add_report. Qed.

Lemma sum_field_total key (workers : list (pyval pyfloat)) : forall a,
  Forall (fun w => int_field key w = true) workers ->
  sum_field rt key workers a = Ok (PInt (a + total key workers)).
Proof.
  induction workers as [|w rest IH]; intros a Hint; simpl.
  - now rewrite Z.add_0_r.
  - inversion Hint as [|? ? Hw Hrest]; subst.
    destruct w as [| | | | | |d]; simpl in Hw; try discriminate.
    simpl. destruct (dict_get_default d key (PInt 0)) as [|b|z| | | |];
      simpl in Hw |- *; try discriminate.
    + rewrite (IH _ Hrest). now rewrite Z.add_assoc.
    + rewrite (IH _ Hrest). now rewrite Z.add_assoc.
Qed.

Lemma counted_worker_fields (workers : list (pyval pyfloat)) :
  Forall (fun w => counted_worker w = true) workers ->
  Forall (fun w => int_field "queued" w = true) workers /\
  Forall (fun w => int_field "blocked" w = true) workers /\
  Forall (fun w => int_field "processed" w = true) workers.
Proof.
  intros H. repeat split; eapply Forall_impl; try exact H; simpl;
    unfold counted_worker; intros w Hw;
    apply andb_true_iff in Hw as [Hw Hp]; apply andb_true_iff in Hw as [Hq Hb];
    assumption.
Qed.

(** C2. When every record of the flattened list is a dict whose
    [queued], [blocked] and [processed] are integers or missing,
    [get_workers] answers with the flattened list (every record of every
    report, none merged), its length as [count], and as the three totals
    the sums of the three fields over that list; a missing field counts
    as 0. *)
Theorem worker_totals raw :
  Forall (fun w => counted_worker w = true) (flatten_workers raw) ->
  flatten_workers raw = flat_map (fun item => worker_records (snd item)) raw /\
  get_workers rt (Fetched raw) =
    Ok (PDict
          [ ("workers", PList (flatten_workers raw));
            ("summary",
             PDict
               [ ("count", PInt (Z.of_nat (List.length (flatten_workers raw))));
                 ("queued", PInt (total "queued" (flatten_workers raw)));
                 ("blocked", PInt (total "blocked" (flatten_workers raw)));
                 ("processed", PInt (total "processed" (flatten_workers raw))) ]) ],
        200) /\
  (forall workers : list (pyval pyfloat), forall key w,
     total key (w :: workers) = field_num key w + total key workers) /\
  (forall key, total key (@nil (pyval pyfloat)) = 0) /\
  (forall key (d : record pyfloat), assoc key d = None -> field_num key (PDict d) = 0).
Proof.
  intros Hint. split; [apply flatten_workers_records|]. split.
  - destruct (counted_worker_fields _ Hint) as (Hq & Hb & Hp).
    unfold get_workers.
    rewrite (sum_field_total _ _ 0 Hq), (sum_field_total _ _ 0 Hb),
      (sum_field_total _ _ 0 Hp).
    reflexivity.
  - repeat split.
    intros key d Hnone. unfold field_num, dict_get_default. now rewrite Hnone.
Qed.

(** C3, as the code has it.  The worker loop takes a list report element
    by element, a dict report as one record, and nothing from any other
    report.  The node loops take the dict elements of a list report, in
    order, and nothing from any other report, a dict included.  Neither
    raises. *)
Theorem report_shapes :
  (forall raw : list (string * pyval pyfloat),
     flatten_workers raw = flat_map (fun item => worker_records (snd item)) raw) /\
  (forall v : pyval pyfloat,
     match v with
     | PList l => worker_records v = l
     | PDict _ => worker_records v = [v]
     | _ => worker_records v = []
     end) /\
  (forall raw nodes,
     collect_nodes rt raw nodes =
     file_all rt
       (flat_map
          (fun item =>
             map (fun e => (node_key rt (fst item) e, e)) (node_records (snd item)))
          raw)
       nodes) /\
  (forall v : pyval pyfloat,
     match v with
     | PList l =>
         node_records v =
         flat_map (fun entry => match entry with PDict d => [d] | _ => [] end) l
     | _ => node_records v = []
     end).
Proof.
  split; [exact flatten_workers_records|].
  split; [intros v; now destruct v|].
  split; [exact collect_nodes_file_all|].
  intros v; now destruct v.
Qed.

(** ** Failures of the runtime client *)

(** C5, as the code has it.  When the fetch fails, [get_system] answers
    503 with exactly two fields: the error, and as [connected] what
    [is_connected()] said before the fetch. *)
Theorem system_failure connected msg :
  get_system rt connected (Failed msg) =
  Ok (PDict [("connected", PBool connected); ("error", PStr msg)], 503).
Proof. now destruct connected. Qed.

(** C8. When the fetch fails, [get_topology] answers 503 with the error
    and no node list; when the fetch succeeds, [get_topology] either
    answers 200 with a node list or raises, and never answers 503. *)
Theorem topology_failure_is_explicit host :
  (forall msg,
     get_topology rt host (Failed msg) = Ok (PDict [("error", PStr msg)], 503) /\
     assoc "nodes" [("error", @PStr pyfloat msg)] = None) /\
  (forall raw,
     match get_topology rt host (Fetched raw) with
     | Ok (body, code) =>
         code = 200 /\ exists stats, body = PDict [("nodes", PList stats)]
     | Raise _ => True
     end).
Proof.
  split; [intros msg; now split|].
  intros raw. destruct (get_topology rt host (Fetched raw)) as [[body code]|x] eqn:H;
    [|exact I].
  destruct (get_topology_ok _ _ _ H) as (nodes & stats & _ & _ & [= -> ->]).
  split; [reflexivity | now exists stats].
Qed.

(** ** Identity and fields of a node *)

Lemma numeric_node_id_anonymous k e :
  dict_get e "node_id" = PNone ->
  numeric_node_id rt k e =
  Ok (match int_of_text rt k with Ok z => z | Raise _ => 0 end).
Proof.
  intros Hnone. unfold numeric_node_id. rewrite Hnone. simpl.
  unfold int_of_text.
  now destruct (if is_ascii_text k then parse_int (int_max_str_digits rt) k
                else int_of_text_ext pyfloat rt k).
Qed.

Lemma int_of_text_decimal z :
  int_fits (int_max_str_digits rt) z = true -> int_of_text rt (decimal z) = Ok z.
Proof.
  intros Hfits. unfold int_of_text.
  now rewrite is_ascii_decimal, (parse_int_decimal _ _ Hfits).
Qed.

(** C6. A record without [node_id] is filed under the name of the
    container that reported it; when it is the record kept for that
    identity, the [node_id] shown is what [int] makes of that name, and 0
    when [int] rejects the name.  What [int] makes of a name is pinned
    here apart from its definition: the numeral of an integer within the
    digit limit gives that integer, and ASCII text without a digit, with
    a character that no number is written with, or with more digits than
    the limit allows, is rejected. *)
Theorem anonymous_record_identity raw nodes k e :
  collect_nodes rt raw [] = Ok nodes ->
  In (k, e) nodes ->
  assoc "node_id" e = None \/ assoc "node_id" e = Some PNone ->
  (forall cid, node_key rt cid e = Ok cid) /\
  (exists entries, In (k, PList entries) raw /\ In (PDict e) entries) /\
  (forall host,
     exists fields,
       node_stat rt host k e = Ok (PDict fields) /\
       assoc "node_id" fields =
       Some (PInt (match int_of_text rt k with Ok z => z | Raise _ => 0 end))) /\
  (forall z,
     k = decimal z -> int_fits (int_max_str_digits rt) z = true ->
     int_of_text rt k = Ok z) /\
  (is_ascii_text k = true -> count_digits k = 0 ->
   int_of_text rt k = Raise ValueError) /\
  (is_ascii_text k = true -> numeral_text k = false ->
   int_of_text rt k = Raise ValueError) /\
  (is_ascii_text k = true ->
   over_limit (int_max_str_digits rt) (count_digits k) = true ->
   int_of_text rt k = Raise ValueError).
Proof.
  intros Hall Hin Habsent.
  assert (Hnone : dict_get e "node_id" = PNone).
  { unfold dict_get. now destruct Habsent as [-> | ->]. }
  assert (Hkey : forall cid, node_key rt cid e = Ok cid).
  { intros cid. unfold node_key. now rewrite Hnone. }
  split; [exact Hkey|]. split; [|split; [|split; [|split; [|split]]]].
  - destruct (collect_nodes_ok _ _ _ Hall) as [_ Hfile].
    destruct (file_each_from _ _ _ Hfile _ Hin) as [[] | Hcand].
    apply in_candidates in Hcand as (cid & Hvis & Hk).
    rewrite Hkey in Hk. injection Hk as ->.
    now apply in_visited_records.
  - intros host. unfold node_stat.
    rewrite (numeric_node_id_anonymous _ _ Hnone). simpl.
    eexists. split; reflexivity.
  - intros z -> Hfits. now apply int_of_text_decimal.
  - intros Hascii Hzero. unfold int_of_text, parse_int. rewrite Hascii.
    rewrite (parse_digits_no_digit _ Hzero).
    now destruct (over_limit _ _).
  - intros Hascii Hodd. unfold int_of_text, parse_int. rewrite Hascii.
    destruct (over_limit _ _); [reflexivity|].
    destruct (parse_digits k) as [z|] eqn:Hparse; [|reflexivity].
    now rewrite (parse_digits_numeral _ _ Hparse) in Hodd.
  - intros Hascii Hover. unfold int_of_text, parse_int.
    now rewrite Hascii, Hover.
Qed.

Lemma node_stat_fields host k e stat :
  node_stat rt host k e = Ok stat ->
  exists fields,
    stat = PDict fields /\
    assoc "hostname" fields =
      Some (if py_truth rt (dict_get e "hostname")
            then dict_get e "hostname" else PStr host) /\
    shown "ip_address" (PStr "") e fields /\
    shown "cpu_usage_pct" (PInt 0) e fields /\
    shown "ram_usage_pct" (PInt 0) e fields /\
    shown "gpu_count" (PInt 0) e fields /\
    shown "gpu_usage_pct" (PInt 0) e fields /\
    shown "hbm_usage_pct" (PInt 0) e fields.
Proof.
  unfold node_stat. intros H.
  destruct (numeric_node_id rt k e) as [n|x]; simpl in H; [|discriminate].
  injection H as <-. eexists. split; [reflexivity|].
  split; [reflexivity|].
  repeat split; unfold shown, dict_get_default; simpl;
    match goal with |- context [assoc ?key e] => now destruct (assoc key e) end.
Qed.

(** C7, as the code has it.  Every element of the answer comes from the
    record kept for its identity.  Its hostname is that record's hostname
    when the record has one that counts as true, and the local name when
    the record's hostname is missing, null or empty, whatever the other
    records of the node say.  [ip_address] missing on the record is shown
    as the empty string, and the usage figures and [gpu_count] as 0. *)
Theorem hostname_of_survivor raw host resp :
  get_topology rt host (Fetched raw) = Ok resp ->
  exists nodes stats,
    collect_nodes rt raw [] = Ok nodes /\
    resp = (PDict [("nodes", PList stats)], 200) /\
    Forall2
      (fun kv stat =>
         exists fields,
           stat = PDict fields /\
           assoc "hostname" fields =
             Some (if py_truth rt (dict_get (snd kv) "hostname")
                   then dict_get (snd kv) "hostname" else PStr host) /\
           shown "ip_address" (PStr "") (snd kv) fields /\
           shown "cpu_usage_pct" (PInt 0) (snd kv) fields /\
           shown "ram_usage_pct" (PInt 0) (snd kv) fields /\
           shown "gpu_count" (PInt 0) (snd kv) fields /\
           shown "gpu_usage_pct" (PInt 0) (snd kv) fields /\
           shown "hbm_usage_pct" (PInt 0) (snd kv) fields)
      nodes stats.
Proof.
  intros Hresp.
  destruct (get_topology_ok _ _ _ Hresp) as (nodes & stats & Hc & Hs & ->).
  exists nodes, stats. split; [assumption|]. split; [reflexivity|].
  eapply Forall2_impl; [|exact (node_stats_each _ _ _ Hs)].
  intros [k e] stat Hstat. simpl in *. exact (node_stat_fields _ _ _ _ Hstat).
Qed.

(** C4 fails on the code: a [node_id] that is text and no number ends
    the request with [ValueError], under every runtime, while the same
    text as the name of a container whose record has no [node_id] is
    shown as 0. *)
Theorem unparseable_node_id_raises host :
  get_topology rt host
    (Fetched [("c1", PList [PDict [("node_id", PStr "abc")]])]) =
  Raise ValueError /\
  get_topology rt host (Fetched [("abc", PList [PDict []])]) =
  Ok (PDict
        [("nodes",
          PList
            [PDict
               [ ("node_id", PInt 0); ("hostname", PStr host);
                 ("ip_address", PStr ""); ("cpu_usage_pct", PInt 0);
                 ("ram_usage_pct", PInt 0); ("gpu_count", PInt 0);
                 ("gpu_usage_pct", PInt 0); ("hbm_usage_pct", PInt 0) ]])],
      200).
Proof.
  assert (Habc : int_of_text rt "abc" = Raise ValueError).
  { unfold int_of_text, parse_int. simpl is_ascii_text. cbv iota.
    now destruct (over_limit _ _). }
  split; cbn -[int_of_text]; unfold node_stat, numeric_node_id;
    cbn -[int_of_text]; now rewrite Habc.
Qed.

(** ** Pools *)

Lemma load_first_find (env : config_env pyfloat) candidates :
  load_first env candidates =
  match find (is_config_file env) candidates with
  | Some (Some path) => safe_load env path
  | _ => Ok PNone
  end.
Proof.
  induction candidates as [|[path|] rest IH]; simpl.
  - reflexivity.
  - now destruct (negb (path =? "")%string && isfile env path).
  - exact IH.
Qed.

Lemma load_config_file (env : config_env pyfloat) :
  _load_config env =
  match config_file env with
  | Some path => safe_load env path
  | None => Ok PNone
  end.
Proof.
  unfold _load_config, config_file, config_candidates. rewrite load_first_find.
  now destruct (find _ _) as [[path|]|].
Qed.

Lemma pool_descriptors_dicts (entries : list (record pyfloat)) :
  pool_descriptors (map PDict entries) = Ok (map describe_pool entries).
Proof.
  induction entries as [|e rest IH]; simpl; [reflexivity|].
  now rewrite IH.
Qed.

Lemma get_pools_dicts (env : config_env pyfloat) d entries :
  _load_config env = Ok (PDict d) ->
  py_or rt (dict_get_default d "compose" (PList [])) (PList []) =
    PList (map PDict entries) ->
  get_pools rt env = Ok (PDict [("pools", PList (map describe_pool entries))], 200).
Proof.
  intros Hcfg Hcompose. unfold get_pools. rewrite Hcfg. simpl.
  rewrite Hcompose. simpl. now rewrite pool_descriptors_dicts.
Qed.

(** C9, as the code has it.  [get_pools] answers "config not found"
    exactly when [_load_config] returns nothing, which is when no
    candidate path is a file or when the first one that is parses to
    null.  When the configuration is a mapping whose compose section is
    missing or a list of mappings, the answer holds one descriptor per
    entry, in order, whose four fields carry what the entry has and the
    empty string for what it lacks. *)
Theorem pools_not_found_iff (env : config_env pyfloat) :
  (get_pools rt env = Ok (PDict [("error", PStr "config not found")], 404) <->
   _load_config env = Ok PNone) /\
  _load_config env =
    match config_file env with
    | Some path => safe_load env path
    | None => Ok PNone
    end /\
  (forall d entries,
     _load_config env = Ok (PDict d) ->
     dict_get_default d "compose" (PList []) = PList (map PDict entries) ->
     get_pools rt env =
     Ok (PDict [("pools", PList (map describe_pool entries))], 200)) /\
  (forall e : record pyfloat,
     exists fields,
       describe_pool e = PDict fields /\
       shown "mod_name" (PStr "") e fields /\
       shown "pool_name" (PStr "") e fields /\
       shown "pool_id" (PStr "") e fields /\
       shown "pool_query" (PStr "") e fields).
Proof.
  split; [|split; [apply load_config_file|split]].
  - split.
    + unfold get_pools.
      destruct (_load_config env) as [cfg|x]; simpl; [|discriminate].
      destruct cfg; simpl; try discriminate; [reflexivity|].
      destruct (py_iter _) as [entries|x]; simpl; [|discriminate].
      destruct (pool_descriptors entries); simpl; discriminate.
    + intros H. unfold get_pools. now rewrite H.
  - intros d entries Hcfg Hcompose. apply get_pools_dicts with (d := d); [assumption|].
    rewrite Hcompose. unfold py_or. simpl. now destruct entries.
  - intros e. eexists. split; [reflexivity|].
    repeat split; unfold shown, dict_get_default; simpl;
      match goal with |- context [assoc ?key e] => now destruct (assoc key e) end.
Qed.

(** C10, as the code has it.  What a configuration file that is found
    and has no compose section gives depends on the document it holds.
    A mapping whose compose section is missing or null gives 200 with an
    empty pool list.  A null document, as an empty file holds, gives 404
    "config not found".  Any other document (a list, a text, a number)
    has no [get], and the request ends with [AttributeError]. *)
Theorem missing_compose_gives_no_pools (env : config_env pyfloat) path :
  config_file env = Some path ->
  (forall d,
     safe_load env path = Ok (PDict d) ->
     assoc "compose" d = None \/ assoc "compose" d = Some PNone ->
     get_pools rt env = Ok (PDict [("pools", PList [])], 200)) /\
  (safe_load env path = Ok PNone ->
   get_pools rt env = Ok (PDict [("error", PStr "config not found")], 404)) /\
  (forall cfg,
     safe_load env path = Ok cfg ->
     cfg <> PNone -> is_dict cfg = false ->
     get_pools rt env = Raise AttributeError).
Proof.
  intros Hfile. split; [|split].
  - intros d Hload Hcompose.
    apply (get_pools_dicts env d []).
    + now rewrite load_config_file, Hfile.
    + unfold dict_get_default. now destruct Hcompose as [-> | ->].
  - intros Hload. unfold get_pools.
    now rewrite load_config_file, Hfile, Hload.
  - intros cfg Hload Hsome Hother. unfold get_pools.
    rewrite load_config_file, Hfile, Hload.
    destruct cfg; try reflexivity; [congruence | discriminate].
Qed.

End Properties.

(** * The properties on the sample data *)

(** [int] on text: blanks around the number, a sign, single underscores
    between digits; anything else is rejected. *)
Example parse_int_samples :
  parse_int 4300 "42" = Some 42 /\
  parse_int 4300 " -007 " = Some (-7) /\
  parse_int 4300 "+1_000" = Some 1000 /\
  parse_int 4300 "" = None /\
  parse_int 4300 "abc" = None /\
  parse_int 4300 "1__0" = None /\
  parse_int 4300 "_1" = None /\
  parse_int 4300 "- 1" = None /\
  parse_int 4300 "1.0" = None /\
  decimal (-15) = "-15" /\
  decimal 0 = "0".
Proof. repeat split. Qed.

(** The digit limit at its default of 4300.  An integer of 4301 digits
    has no text, so a record with such a [node_id] ends the request; a
    container name of 4301 digits is no number to [int], so its record
    is shown as node 0; without a limit both convert. *)
Example digit_limit_samples :
  count_digits (decimal huge_node_id) = 4301 /\
  py_str plain (PInt huge_node_id) = Raise ValueError /\
  get_topology plain "localbox"
    (Fetched [("c1", PList [PDict [("node_id", PInt huge_node_id)]])]) =
  Raise ValueError /\
  count_digits long_numeral = 4301 /\
  parse_int 4300 long_numeral = None /\
  parse_int 0 long_numeral = Some 1 /\
  numeric_node_id plain long_numeral [] = Ok 0.
Proof. vm_compute. repeat split. Qed.

(** The two examples of the specification: the newer report of node 1
    wins, and two worker records add up field by field. *)
Example newer_report_wins :
  get_topology plain "localbox" (Fetched two_reports) =
  Ok (PDict
        [("nodes",
          PList
            [PDict
               [ ("node_id", PInt 1); ("hostname", PStr "localbox");
                 ("ip_address", PStr ""); ("cpu_usage_pct", PInt 20);
                 ("ram_usage_pct", PInt 0); ("gpu_count", PInt 0);
                 ("gpu_usage_pct", PInt 0); ("hbm_usage_pct", PInt 0) ]])],
      200).
Proof. reflexivity. Qed.

Example overview_of_two_workers :
  get_system plain false (Fetched worker_reports) =
  Ok (PDict
        [ ("connected", PBool true); ("workers", PInt 2); ("queued", PInt 2);
          ("blocked", PInt 1); ("processed", PInt 5) ],
      200).
Proof. reflexivity. Qed.

Lemma reconciler_keeps_newest_witness :
  Forall (fun ce => reconcilable 4300 ce = true) (visited_records two_reports) /\
  collect_nodes plain two_reports [] =
    Ok [("1", [("node_id", PInt 1); ("event_id", PInt 7);
               ("cpu_usage_pct", PInt 20)])] /\
  collect_nodes plain uncounted_first [] =
    Ok [("1", [("node_id", PInt 1); ("hostname", PStr "a")])] /\
  (exists nodes,
     collect_nodes plain uncounted_first [] = Ok nodes /\
     (forall k,
        In k (map fst nodes) <->
        exists cid e,
          In (cid, e) (visited_records uncounted_first) /\
          stated_identity 4300 cid e = Some k) /\
     (forall k e, In (k, e) nodes ->
        exists before after,
          reports_of 4300 k (visited_records uncounted_first) =
            before ++ e :: after /\
          Forall (fun e' => counter_num e' < counter_num e) before /\
          Forall (fun e' => counter_num e' <= counter_num e) after)).
Proof.
  split; [repeat constructor|]. split; [reflexivity|]. split; [reflexivity|].
  apply (proj2 (reconciler_keeps_newest Empty_set plain uncounted_first)).
  repeat constructor.
Defined.

Lemma worker_totals_witness :
  Forall (fun w => counted_worker w = true) (flatten_workers worker_reports) /\
  get_workers plain (Fetched worker_reports) =
  Ok (PDict
        [ ("workers",
           PList [PDict [("queued", PInt 2); ("processed", PInt 5)];
                  PDict [("blocked", PInt 1)]]);
          ("summary",
           PDict [ ("count", PInt 2); ("queued", PInt 2); ("blocked", PInt 1);
                   ("processed", PInt 5) ]) ],
      200).
Proof.
  assert (Hint : Forall (fun w : val => counted_worker w = true)
                   (flatten_workers worker_reports)) by (repeat constructor).
  split; [exact Hint|].
  exact (proj1 (proj2 (worker_totals Empty_set plain worker_reports Hint))).
Defined.

(** C3 as stated fails on the node path: a report that is one record
    yields that record on the worker path and nothing on the node path. *)
Lemma single_record_is_skipped :
  worker_records lone_record = [lone_record] /\
  node_records lone_record = [] /\
  get_topology plain "localbox" (Fetched single_record) =
    Ok (PDict [("nodes", PList [])], 200).
Proof. repeat split. Qed.

(** C5 as stated fails: with the client connected, a failed fetch is
    answered with [connected] true. *)
Lemma system_failure_while_connected :
  get_system plain true (Failed "runtime unreachable") =
  Ok (PDict [("connected", PBool true); ("error", PStr "runtime unreachable")], 503).
Proof. reflexivity. Qed.

Lemma anonymous_record_identity_witness :
  collect_nodes plain anonymous_nodes [] =
    Ok [("7", [("event_id", PInt 3)]); ("edge", [("event_id", PInt 4)])] /\
  (exists fields,
     node_stat plain "localbox" "edge" [("event_id", PInt 4)] = Ok (PDict fields) /\
     assoc "node_id" fields = Some (PInt 0)) /\
  (exists fields,
     node_stat plain "localbox" "7" [("event_id", PInt 3)] = Ok (PDict fields) /\
     assoc "node_id" fields = Some (PInt 7)).
Proof.
  split; [reflexivity|]. split.
  - exact (proj1 (proj2 (proj2
      (anonymous_record_identity Empty_set plain anonymous_nodes _ "edge"
         [("event_id", PInt 4)] eq_refl (or_intror (or_introl eq_refl))
         (or_introl eq_refl))))
      "localbox").
  - exact (proj1 (proj2 (proj2
      (anonymous_record_identity Empty_set plain anonymous_nodes _ "7"
         [("event_id", PInt 3)] eq_refl (or_introl eq_refl) (or_introl eq_refl))))
      "localbox").
Defined.

(** C7 as stated fails: node 1 is shown under the local name although
    its older record names the host. *)
Lemma hostname_of_older_record_is_lost :
  with_key "1" (candidates plain named_then_unnamed) =
    [ [("node_id", PInt 1); ("event_id", PInt 5); ("hostname", PStr "alpha")];
      [("node_id", PInt 1); ("event_id", PInt 7)] ] /\
  get_topology plain "localbox" (Fetched named_then_unnamed) =
  Ok (PDict
        [("nodes",
          PList
            [PDict
               [ ("node_id", PInt 1); ("hostname", PStr "localbox");
                 ("ip_address", PStr ""); ("cpu_usage_pct", PInt 0);
                 ("ram_usage_pct", PInt 0); ("gpu_count", PInt 0);
                 ("gpu_usage_pct", PInt 0); ("hbm_usage_pct", PInt 0) ]])],
      200).
Proof. split; reflexivity. Qed.

Lemma hostname_of_survivor_witness :
  exists nodes stats,
    collect_nodes plain named_then_unnamed [] = Ok nodes /\
    Forall2
      (fun kv stat =>
         exists fields,
           stat = PDict fields /\
           assoc "hostname" fields =
             Some (if py_truth plain (dict_get (snd kv) "hostname")
                   then dict_get (snd kv) "hostname" else PStr "localbox"))
      nodes stats.
Proof.
  destruct (hostname_of_survivor Empty_set plain named_then_unnamed "localbox" _ eq_refl)
    as (nodes & stats & Hc & _ & Hall).
  exists nodes, stats. split; [exact Hc|].
  eapply Forall2_impl; [|exact Hall].
  intros kv stat (fields & Hstat & Hhost & _). now exists fields.
Defined.

(** C9 as stated fails: a config file is found, and the answer is
    "config not found" all the same, because the file parses to null. *)
Lemma empty_config_is_not_found :
  config_file empty_config = Some "/etc/chimaera.yaml" /\
  isfile empty_config "/etc/chimaera.yaml" = true /\
  safe_load empty_config "/etc/chimaera.yaml" = Ok PNone /\
  get_pools plain empty_config =
  Ok (PDict [("error", PStr "config not found")], 404).
Proof. repeat split. Qed.

Lemma pools_not_found_iff_witness :
  get_pools plain two_pools_config =
  Ok (PDict
        [("pools",
          PList
            [ PDict [ ("mod_name", PStr "bdev"); ("pool_name", PStr "ram");
                      ("pool_id", PStr "300.0"); ("pool_query", PStr "local") ];
              PDict [ ("mod_name", PStr "cte"); ("pool_name", PStr "core");
                      ("pool_id", PStr "512.0"); ("pool_query", PStr "") ] ])],
      200).
Proof.
  exact (proj1 (proj2 (proj2 (pools_not_found_iff Empty_set plain two_pools_config)))
           [("compose",
             PList [PDict [("mod_name", PStr "bdev"); ("pool_name", PStr "ram");
                           ("pool_id", PStr "300.0"); ("pool_query", PStr "local")];
                    PDict [("mod_name", PStr "cte"); ("pool_name", PStr "core");
                           ("pool_id", PStr "512.0")]])]
           [ [("mod_name", PStr "bdev"); ("pool_name", PStr "ram");
              ("pool_id", PStr "300.0"); ("pool_query", PStr "local")];
             [("mod_name", PStr "cte"); ("pool_name", PStr "core");
              ("pool_id", PStr "512.0")] ]
           eq_refl eq_refl).
Defined.

(** C10 as stated fails: the file under the home directory is found and
    has no compose section, and the answer is "config not found". *)
Lemma found_null_document_is_not_found :
  config_file null_home_config = Some "/root/.chimaera/chimaera.yaml" /\
  isfile null_home_config "/root/.chimaera/chimaera.yaml" = true /\
  safe_load null_home_config "/root/.chimaera/chimaera.yaml" = Ok PNone /\
  get_pools plain null_home_config =
  Ok (PDict [("error", PStr "config not found")], 404).
Proof. repeat split. Qed.

Lemma missing_compose_gives_no_pools_witness :
  config_file no_compose_config = Some "/root/.chimaera/chimaera.yaml" /\
  get_pools plain no_compose_config = Ok (PDict [("pools", PList [])], 200) /\
  get_pools plain null_home_config =
  Ok (PDict [("error", PStr "config not found")], 404) /\
  get_pools plain list_config = Raise AttributeError.
Proof.
  split; [reflexivity|]. split; [|split].
  - exact (proj1 (missing_compose_gives_no_pools Empty_set plain no_compose_config
                    "/root/.chimaera/chimaera.yaml" eq_refl)
             [("networking", PDict [("port", PInt 5555)])]
             eq_refl (or_introl eq_refl)).
  - exact (proj1 (proj2 (missing_compose_gives_no_pools Empty_set plain
                           null_home_config "/root/.chimaera/chimaera.yaml" eq_refl))
             eq_refl).
  - apply (proj2 (proj2 (missing_compose_gives_no_pools Empty_set plain
                           list_config "/root/.chimaera/chimaera.yaml" eq_refl))
             (PList [PStr "compose"]) eq_refl); [discriminate | reflexivity].
Defined.

(** * Further properties of the handlers *)

Section Coverage.

Variable pyfloat : Type.
Variable rt : runtime pyfloat.

Implicit Types (e prev : record pyfloat) (nodes : node_table pyfloat).
Implicit Types (seen cands : list (string * record pyfloat)).
Implicit Types (raw : list (string * pyval pyfloat)).
Implicit Types (env : config_env pyfloat).

(** ** Workers and the system overview *)


(** X2. A failed fetch makes [get_workers] answer 503 with the error and
    neither a worker list nor a summary; after a successful fetch it
    answers 200 with both, or raises, and never answers 503. *)
Theorem workers_failure_is_explicit :
  (forall msg,
     get_workers rt (Failed msg) = Ok (PDict [("error", PStr msg)], 503)) /\
  (forall raw,
     match get_workers rt (Fetched raw) with
     | Ok (body, code) =>
         code = 200 /\
         exists summary,
           body = PDict [("workers", PList (flatten_workers raw));
                         ("summary", PDict summary)]
     | Raise _ => True
     end).
Proof.
  split; [reflexivity|]. intros raw. unfold get_workers.
  destruct (sum_field rt "queued" (flatten_workers raw) 0) as [q|x]; simpl;
    [|exact I].
  destruct (sum_field rt "blocked" (flatten_workers raw) 0) as [b|x]; simpl;
    [|exact I].
  destruct (sum_field rt "processed" (flatten_workers raw) 0) as [p|x]; simpl;
    [|exact I].
  split; [reflexivity|]. eexists. reflexivity.
Qed.

Lemma sum_field_prefix key (good : list (pyval pyfloat)) rest : forall a,
  Forall (fun w => int_field key w = true) good ->
  sum_field rt key (good ++ rest) a = sum_field rt key rest (a + total key good).
Proof.
  induction good as [|w good IH]; intros a Hgood; simpl.
  - now rewrite Z.add_0_r.
  - inversion Hgood as [|? ? Hw Hrest]; subst.
    destruct w as [| | | | | |d]; simpl in Hw; try discriminate.
    simpl. destruct (dict_get_default d key (PInt 0)) as [|b|z| | | |];
      simpl in Hw |- *; try discriminate;
      rewrite (IH _ Hrest); now rewrite Z.add_assoc.
Qed.

(** X3. The worker loop does not check what a list report holds: the first
    record that is no dict ends [get_workers] with [AttributeError], and
    the first record whose [queued] is present and no number ends it with
    [TypeError], when the records before it have integer [queued]. *)
Theorem workers_first_bad_record raw good w rest :
  flatten_workers raw = good ++ w :: rest ->
  Forall (fun w' => int_field "queued" w' = true) good ->
  (is_dict w = false -> get_workers rt (Fetched raw) = Raise AttributeError) /\
  (forall d,
     w = PDict d ->
     is_number (dict_get_default d "queued" (PInt 0)) = false ->
     get_workers rt (Fetched raw) = Raise TypeError).
Proof.
  intros Hflat Hgood. unfold get_workers. rewrite Hflat.
  rewrite (sum_field_prefix _ _ _ _ Hgood). split.
  - intros Hw. now destruct w.
  - intros d -> Hv. simpl.
    now destruct (dict_get_default d "queued" (PInt 0)).
Qed.

(** ** The configuration file *)

(** X4. [_load_config] settles on the first of [CHI_SERVER_CONF],
    [WRP_RUNTIME_CONF] and the path under the home directory that is a
    non-empty path naming a file: an earlier candidate that is one hides
    the later ones, and one that is unset, empty or names no file is
    passed over. *)
Theorem load_config_precedence env :
  (forall path,
     CHI_SERVER_CONF env = Some path ->
     is_config_file env (Some path) = true ->
     _load_config env = safe_load env path) /\
  (forall path,
     is_config_file env (CHI_SERVER_CONF env) = false ->
     WRP_RUNTIME_CONF env = Some path ->
     is_config_file env (Some path) = true ->
     _load_config env = safe_load env path) /\
  (is_config_file env (CHI_SERVER_CONF env) = false ->
   is_config_file env (WRP_RUNTIME_CONF env) = false ->
   _load_config env =
   if is_config_file env (Some (home_config env))
   then safe_load env (home_config env) else Ok PNone).
Proof.
  unfold _load_config. repeat split.
  - intros path -> Hfile. simpl in *. now rewrite Hfile.
  - intros path Hchi -> Hfile. simpl in *.
    destruct (CHI_SERVER_CONF env) as [chi|]; simpl in *; rewrite ?Hchi;
      now rewrite Hfile.
  - intros Hchi Hwrp. simpl in *.
    destruct (CHI_SERVER_CONF env) as [chi|], (WRP_RUNTIME_CONF env) as [wrp|];
      simpl in *; rewrite ?Hchi, ?Hwrp; reflexivity.
Qed.

(** X5. [get_config] and [get_pools] read the configuration alike: an
    exception of the loader ends both, a loader that finds nothing makes
    both answer 404, and otherwise [get_config] answers 200 with the
    parsed document unchanged while [get_pools] answers 200 or raises. *)
Theorem config_and_pools_agree env :
  match _load_config env with
  | Raise x => get_config env = Raise x /\ get_pools rt env = Raise x
  | Ok PNone =>
      get_config env =
        Ok (PDict
              [ ("error", PStr "no config file found");
                ("searched",
                 PList [ PStr "CHI_SERVER_CONF"; PStr "WRP_RUNTIME_CONF";
                         PStr "~/.chimaera/chimaera.yaml" ]) ], 404) /\
      get_pools rt env = Ok (PDict [("error", PStr "config not found")], 404)
  | Ok cfg =>
      get_config env = Ok (PDict [("config", cfg)], 200) /\
      match get_pools rt env with
      | Ok (body, code) => code = 200 /\ exists pools, body = PDict [("pools", PList pools)]
      | Raise _ => True
      end
  end.
Proof.
  unfold get_config, get_pools.
  destruct (_load_config env) as [cfg|x]; simpl; [|now split].
  destruct cfg; simpl; try (now split).
  split; [reflexivity|].
  destruct (py_iter _) as [entries|x]; simpl; [|exact I].
  destruct (pool_descriptors entries) as [pools|x]; simpl; [|exact I].
  split; [reflexivity | now exists pools].
Qed.

(** X6. A compose section that counts as false, whatever its type (null,
    an empty list, an empty string, an empty mapping, 0, false), gives
    an empty pool list. *)
Theorem falsy_compose_gives_no_pools env d :
  _load_config env = Ok (PDict d) ->
  py_truth rt (dict_get_default d "compose" (PList [])) = false ->
  get_pools rt env = Ok (PDict [("pools", PList [])], 200).
Proof.
  intros Hcfg Hfalse. unfold get_pools. rewrite Hcfg. simpl.
  unfold py_or. now rewrite Hfalse.
Qed.

Lemma pool_descriptors_bad (good : list (record pyfloat)) bad rest :
  is_dict bad = false ->
  pool_descriptors (map PDict good ++ bad :: rest) = Raise AttributeError.
Proof.
  intros Hbad. induction good as [|e good IH]; simpl.
  - now destruct bad.
  - now rewrite IH.
Qed.

(** X7. What [get_pools] does not absorb.  A document that is neither null
    nor a mapping, an empty list or 0 included, ends it with
    [AttributeError]; so does a compose list
    with an entry that is no mapping, and a compose section that is a
    non-empty string or a non-empty mapping; a compose section that is a
    number counting as true ends it with [TypeError]. *)
Theorem pools_rejects_malformed_config env :
  (forall cfg,
     _load_config env = Ok cfg ->
     match cfg with
     | PNone | PDict _ => True
     | _ => get_pools rt env = Raise AttributeError
     end) /\
  (forall d good bad rest,
     _load_config env = Ok (PDict d) ->
     assoc "compose" d = Some (PList (map PDict good ++ bad :: rest)) ->
     is_dict bad = false ->
     get_pools rt env = Raise AttributeError) /\
  (forall d c,
     _load_config env = Ok (PDict d) ->
     assoc "compose" d = Some c ->
     py_truth rt c = true ->
     match c with
     | PStr _ | PDict _ => get_pools rt env = Raise AttributeError
     | PInt _ | PBool _ | PFloat _ => get_pools rt env = Raise TypeError
     | PNone | PList _ => True
     end).
Proof.
  repeat split.
  - intros cfg Hcfg. unfold get_pools. rewrite Hcfg. simpl.
    destruct cfg; simpl; try exact I; reflexivity.
  - intros d good bad rest Hcfg Hcompose Hbad. unfold get_pools.
    rewrite Hcfg. simpl. unfold dict_get_default. rewrite Hcompose.
    unfold py_or.
    assert (Htrue : py_truth rt (PList (map PDict good ++ bad :: rest)) = true)
      by (simpl; now destruct good).
    rewrite Htrue. simpl. now rewrite pool_descriptors_bad.
  - intros d c Hcfg Hcompose Htrue. unfold get_pools.
    rewrite Hcfg. simpl. unfold dict_get_default. rewrite Hcompose.
    unfold py_or. rewrite Htrue.
    destruct c as [|b|z|x|t|l|m]; simpl; try exact I; try reflexivity.
    + destruct t as [|c t]; [discriminate | reflexivity].
    + destruct m as [|[k v] m]; [discriminate | reflexivity].
Qed.

(** ** The node table *)

Lemma in_first_seen k (l : list string) : In k (first_seen l) <-> In k l.
Proof.
  induction l as [|a l IH]; simpl; [tauto|].
  rewrite filter_In, IH. destruct (String.eqb_spec k a) as [->|Hne]; simpl.
  - tauto.
  - intuition congruence.
Qed.

Lemma first_seen_snoc k (l : list string) :
  first_seen (l ++ [k]) = if in_dec string_dec k l then first_seen l
                          else first_seen l ++ [k].
Proof.
  induction l as [|a l IH]; simpl.
  - reflexivity.
  - rewrite IH. destruct (string_dec a k) as [->|Hne].
    + destruct (in_dec string_dec k l) as [Hin|Hout]; [reflexivity|].
      rewrite filter_app. simpl. rewrite String.eqb_refl. simpl.
      now rewrite app_nil_r.
    + destruct (in_dec string_dec k l) as [Hin|Hout]; [reflexivity|].
      rewrite filter_app. simpl.
      destruct (String.eqb_spec k a) as [->|_]; [congruence | reflexivity].
Qed.

Lemma file_under_keys k e nodes nodes' :
  file_under rt k e nodes = Ok nodes' ->
  map fst nodes' = if in_dec string_dec k (map fst nodes) then map fst nodes
                   else map fst nodes ++ [k].
Proof.
  unfold file_under. destruct (assoc k nodes) as [prev|] eqn:Hassoc.
  - assert (Hin : In k (map fst nodes))
      by exact (in_map fst _ _ (assoc_some_in _ _ _ _ Hassoc)).
    destruct (in_dec string_dec k (map fst nodes)) as [_|Hout]; [|contradiction].
    destruct (py_gt rt (event_id e) (event_id prev)) as [[|]|x]; simpl;
      intros H; try discriminate; injection H as <-; [|reflexivity].
    exact (assoc_set_keys_present _ _ _ _ _ Hassoc).
  - intros [= <-]. rewrite (assoc_set_absent _ _ _ _ Hassoc), map_app.
    destruct (in_dec string_dec k (map fst nodes)) as [Hin|_]; [|reflexivity].
    now apply assoc_none_iff in Hassoc.
Qed.

Lemma file_each_first_seen cands : forall seen nodes nodes',
  map fst nodes = first_seen (map fst seen) ->
  file_each rt cands nodes = Ok nodes' ->
  map fst nodes' = first_seen (map fst (seen ++ cands)).
Proof.
  induction cands as [|[k e] rest IH]; intros seen nodes nodes' Hkeys Hall;
    simpl in Hall.
  - injection Hall as <-. now rewrite app_nil_r.
  - destruct (file_under rt k e nodes) as [nodes1|x] eqn:Hstep; simpl in Hall;
      [|discriminate].
    replace (seen ++ (k, e) :: rest) with ((seen ++ [(k, e)]) ++ rest)
      by now rewrite <- app_assoc.
    apply (IH _ nodes1); [|assumption].
    rewrite (file_under_keys _ _ _ _ Hstep), map_app.
    change (map fst [(k, e)]) with [k]. rewrite first_seen_snoc, Hkeys.
    destruct (in_dec string_dec k (first_seen (map fst seen))) as [H1|H1],
             (in_dec string_dec k (map fst seen)) as [H2|H2];
      try reflexivity; exfalso; rewrite in_first_seen in H1; contradiction.
Qed.

(** X8. The nodes of the answer come in the order in which their identities
    first appear among the reported records: a record that replaces an
    older one takes the older one's place. *)
Theorem topology_order_is_first_seen raw host resp :
  get_topology rt host (Fetched raw) = Ok resp ->
  exists nodes stats,
    collect_nodes rt raw [] = Ok nodes /\
    map fst nodes = first_seen (map fst (candidates rt raw)) /\
    resp = (PDict [("nodes", PList stats)], 200) /\
    Forall2 (fun kv stat => node_stat rt host (fst kv) (snd kv) = Ok stat)
            nodes stats.
Proof.
  intros Hresp.
  destruct (get_topology_ok _ _ _ _ _ Hresp) as (nodes & stats & Hc & Hs & ->).
  exists nodes, stats. split; [assumption|]. split.
  - destruct (collect_nodes_ok _ rt _ _ _ Hc) as [_ Hfile].
    exact (file_each_first_seen _ [] [] nodes eq_refl Hfile).
  - split; [reflexivity | now apply node_stats_each].
Qed.

Lemma file_each_fresh cands : forall nodes,
  NoDup (map fst nodes ++ map fst cands) ->
  file_each rt cands nodes = Ok (nodes ++ cands).
Proof.
  induction cands as [|[k e] rest IH]; intros nodes Hnd; simpl.
  - now rewrite app_nil_r.
  - assert (Hfresh : assoc k nodes = None).
    { apply assoc_none_iff. intros Hin.
      apply NoDup_remove_2 in Hnd. apply Hnd.
      apply in_or_app. now left. }
    unfold file_under. rewrite Hfresh. simpl.
    rewrite (assoc_set_absent _ _ _ _ Hfresh), IH.
    + now rewrite <- app_assoc.
    + rewrite map_app. simpl. now rewrite <- app_assoc.
Qed.

(** X9. When every visited record has an identity that [str] can write
    and no identity is reported twice, nothing is compared: the loops keep
    every record, in order, and do not raise, whatever the event counters
    hold. *)
Theorem distinct_identities_pass_through raw :
  Forall (fun v => has_text v = true) (visits rt raw) ->
  NoDup (map fst (candidates rt raw)) ->
  collect_nodes rt raw [] = Ok (candidates rt raw).
Proof.
  intros Htext Hnd. rewrite (collect_nodes_identified _ rt _ _ Htext).
  exact (file_each_fresh _ [] Hnd).
Qed.

(** X10. An event counter that is no number is not absorbed: when the
    records visited so far had identities that [str] could write and
    integer counters, and the next record has such an identity too and
    it is one already met, a counter that is null, text, a list or a
    mapping ends [get_topology] with [TypeError]. *)
Theorem uncomparable_event_id_raises raw host seen k e rest :
  visits rt raw = map keyed seen ++ (Ok k, e) :: rest ->
  Forall (fun c => int_event (snd c) = true) seen ->
  In k (map fst seen) ->
  is_number (event_id e) = false ->
  get_topology rt host (Fetched raw) = Raise TypeError.
Proof.
  intros Hvisits Hseen Hk Hbad.
  unfold get_topology.
  rewrite collect_nodes_file_all, Hvisits, file_all_app, file_all_keyed.
  destruct (file_each_reconciled _ rt seen [] [] (reconciled_nil _)
              (Forall_nil _) Hseen) as (nodes & -> & Hnd & Hkeys & Hbest).
  simpl in Hkeys, Hbest |- *.
  apply Hkeys in Hk.
  destruct (assoc k nodes) as [prev|] eqn:Hassoc;
    [|now apply assoc_none_iff in Hassoc].
  unfold file_under. rewrite Hassoc.
  assert (Hprev : int_event prev = true).
  { destruct (Hbest _ _ (assoc_some_in _ _ _ _ Hassoc)) as (b & a & Heq & _).
    assert (Hin : In (k, prev) seen).
    { apply in_with_key. rewrite Heq. apply in_elt. }
    rewrite Forall_forall in Hseen. exact (Hseen _ Hin). }
  unfold int_event in Hprev.
  destruct (event_id e), (event_id prev); simpl in *; try discriminate;
    reflexivity.
Qed.

(** X11. The identity of a node is text, and an integer within the
    digit limit survives the passage through it.  A record with such an
    integer [node_id] [z] is filed under the decimal numeral of [z] and
    shown with [node_id] [z], and a record without [node_id] from a
    container named by that numeral falls under the same identity and is
    shown with the same [node_id].  A record whose integer [node_id] has
    more digits than the limit allows is not filed: [str] raises
    [ValueError]. *)
Theorem integer_node_id_round_trip z cid e :
  dict_get e "node_id" = PInt z ->
  (int_fits (int_max_str_digits rt) z = true ->
   node_key rt cid e = Ok (decimal z) /\
   numeric_node_id rt (decimal z) e = Ok z /\
   (forall e',
      dict_get e' "node_id" = PNone ->
      node_key rt (decimal z) e' = node_key rt cid e /\
      numeric_node_id rt (decimal z) e' = Ok z)) /\
  (int_fits (int_max_str_digits rt) z = false ->
   node_key rt cid e = Raise ValueError /\
   forall host nodes,
     keep_latest rt cid e nodes = Raise ValueError /\
     get_topology rt host (Fetched [(cid, PList [PDict e])]) = Raise ValueError).
Proof.
  intros Hid. split.
  - intros Hfits.
    assert (Hkey : node_key rt cid e = Ok (decimal z)).
    { unfold node_key. rewrite Hid. simpl. now rewrite Hfits. }
    split; [exact Hkey|]. split.
    + unfold numeric_node_id. now rewrite Hid.
    + intros e' Hnone. split.
      * rewrite Hkey. unfold node_key. now rewrite Hnone.
      * rewrite (numeric_node_id_anonymous _ rt _ _ Hnone).
        now rewrite (int_of_text_decimal _ rt _ Hfits).
  - intros Hover.
    assert (Hkey : node_key rt cid e = Raise ValueError).
    { unfold node_key. rewrite Hid. simpl. now rewrite Hover. }
    split; [exact Hkey|]. intros host nodes. split.
    + unfold keep_latest. now rewrite Hkey.
    + unfold get_topology. simpl. unfold keep_latest. now rewrite Hkey.
Qed.

Lemma node_stats_plain host nodes :
  Forall (fun kv => plain_node_id rt (snd kv) = true) nodes ->
  exists stats,
    node_stats rt host nodes = Ok stats /\ List.length stats = List.length nodes.
Proof.
  induction nodes as [|[k e] rest IH]; intros Hplain; simpl.
  - now exists [].
  - inversion Hplain as [|? ? He Hrest]; subst. simpl in He.
    destruct (IH Hrest) as (stats & Hstats & Hlen).
    assert (Hid : exists n, numeric_node_id rt k e = Ok n).
    { unfold plain_node_id in He. unfold numeric_node_id.
      destruct (dict_get e "node_id") eqn:Hget; try discriminate; simpl.
      - unfold int_of_text.
        destruct (if is_ascii_text k then parse_int (int_max_str_digits rt) k
                  else int_of_text_ext pyfloat rt k);
          eexists; reflexivity.
      - eexists; reflexivity.
      - eexists; reflexivity. }
    destruct Hid as (n & Hn). unfold node_stat. rewrite Hn. simpl.
    rewrite Hstats. simpl. eexists. split; [reflexivity|]. simpl. now rewrite Hlen.
Qed.

Lemma plain_node_id_has_text cid e :
  plain_node_id rt e = true -> exists k, node_key rt cid e = Ok k.
Proof.
  unfold plain_node_id, node_key.
  destruct (dict_get e "node_id") as [|[|]|z| | | |]; simpl; try discriminate;
    intros H; rewrite ?H; eexists; reflexivity.
Qed.


(** X13. Every element of a topology answer is a mapping with the same eight
    keys in the same order, so nothing else of a record (its event
    counter, say) is passed on; its [node_id] is an integer; and when the
    local host name is not empty its hostname counts as true. *)
Theorem node_elements_are_well_formed raw host resp :
  get_topology rt host (Fetched raw) = Ok resp ->
  exists stats,
    resp = (PDict [("nodes", PList stats)], 200) /\
    Forall
      (fun stat =>
         exists fields n hostname,
           stat = PDict fields /\
           map fst fields = node_stat_keys /\
           assoc "node_id" fields = Some (PInt n) /\
           assoc "hostname" fields = Some hostname /\
           (host <> "" -> py_truth rt hostname = true))
      stats.
Proof.
  intros Hresp.
  destruct (get_topology_ok _ _ _ _ _ Hresp) as (nodes & stats & _ & Hs & ->).
  exists stats. split; [reflexivity|].
  pose proof (node_stats_each _ _ _ _ _ Hs) as Hall. clear Hs Hresp.
  induction Hall as [|[k e] stat nodes' stats' Hstat _ IH];
    [constructor | constructor; [|exact IH]].
  simpl in Hstat. unfold node_stat in Hstat.
  destruct (numeric_node_id rt k e) as [n|x]; simpl in Hstat; [|discriminate].
  injection Hstat as <-. eexists. exists n. eexists.
  split; [reflexivity|]. split; [reflexivity|]. split; [reflexivity|].
  split; [reflexivity|].
  intros Hhost. unfold py_or.
  destruct (py_truth rt (dict_get e "hostname")) eqn:Htruth; [assumption|].
  simpl. now apply String.eqb_neq in Hhost as ->.
Qed.

(** ** Independence of the order of the reports *)

Lemma with_key_in k e cands : In (k, e) cands -> In e (with_key k cands).
Proof.
  intros Hin. unfold with_key. apply in_map_iff. exists (k, e).
  split; [reflexivity|]. apply filter_In. split; [assumption|].
  simpl. apply String.eqb_refl.
Qed.

Lemma first_max_greatest e (l : list (record pyfloat)) :
  first_max e l ->
  In e l /\ forall e', In e' l -> event_num e' <= event_num e.
Proof.
  intros (before & after & -> & Hlt & Hle). split; [apply in_elt|].
  intros e' Hin. rewrite Forall_forall in Hlt, Hle.
  apply in_app_or in Hin as [H | [<- | H]].
  - specialize (Hlt _ H). simpl in Hlt. lia.
  - lia.
  - exact (Hle _ H).
Qed.

Lemma survivor_transfer cands1 cands2 nodes1 nodes2 :
  reconciled cands1 nodes1 ->
  reconciled cands2 nodes2 ->
  (forall c, In c cands1 <-> In c cands2) ->
  (forall k e e',
     In (k, e) cands1 -> In (k, e') cands1 -> event_num e = event_num e' -> e = e') ->
  forall k e, In (k, e) nodes1 -> In (k, e) nodes2.
Proof.
  intros (_ & Hkeys1 & Hbest1) (_ & Hkeys2 & Hbest2) Hsame Hdistinct k e Hin.
  destruct (first_max_greatest _ _ (Hbest1 _ _ Hin)) as [He Hmax1].
  apply in_with_key in He.
  assert (Hk2 : In k (map fst nodes2)).
  { apply Hkeys2. apply Hsame in He. exact (in_map fst _ _ He). }
  apply in_map_iff in Hk2 as ([k2 e2] & Hfst & Hin2). simpl in Hfst. subst k2.
  destruct (first_max_greatest _ _ (Hbest2 _ _ Hin2)) as [He2 Hmax2].
  apply in_with_key in He2.
  assert (e = e2) as ->; [|assumption].
  apply (Hdistinct k); [assumption | now apply Hsame |].
  apply Z.le_antisymm.
  - apply Hmax2, with_key_in. now apply Hsame.
  - apply Hmax1, with_key_in. now apply Hsame.
Qed.

(** X14. When the identities can be written, the event counters are
    integers and no two reports of one identity carry the same counter,
    the records kept do not depend on the order in which containers and
    records are visited: reordering the reports reorders the table at
    most. *)
Theorem survivors_do_not_depend_on_order raw1 raw2 :
  Permutation (visits rt raw1) (visits rt raw2) ->
  Forall (fun v => has_text v = true) (visits rt raw1) ->
  Forall (fun c => int_event (snd c) = true) (candidates rt raw1) ->
  (forall k e e',
     In (k, e) (candidates rt raw1) -> In (k, e') (candidates rt raw1) ->
     event_num e = event_num e' -> e = e') ->
  exists nodes1 nodes2,
    collect_nodes rt raw1 [] = Ok nodes1 /\
    collect_nodes rt raw2 [] = Ok nodes2 /\
    Permutation nodes1 nodes2.
Proof.
  intros Hvisits Htext1 Hint1 Hdistinct.
  assert (Htext2 : Forall (fun v => has_text v = true) (visits rt raw2))
    by exact (Permutation_Forall Hvisits Htext1).
  assert (Hperm : Permutation (candidates rt raw1) (candidates rt raw2))
    by (unfold candidates; now apply Permutation_flat_map).
  assert (Hint2 : Forall (fun c => int_event (snd c) = true) (candidates rt raw2))
    by exact (Permutation_Forall Hperm Hint1).
  assert (Hsame : forall c, In c (candidates rt raw1) <-> In c (candidates rt raw2)).
  { intros c. split; apply Permutation_in; [assumption | now apply Permutation_sym]. }
  destruct (file_each_reconciled _ rt _ [] [] (reconciled_nil _) (Forall_nil _) Hint1)
    as (nodes1 & Hall1 & Hrec1).
  destruct (file_each_reconciled _ rt _ [] [] (reconciled_nil _) (Forall_nil _) Hint2)
    as (nodes2 & Hall2 & Hrec2).
  simpl in Hrec1, Hrec2.
  exists nodes1, nodes2.
  rewrite (collect_nodes_identified _ rt _ _ Htext1),
    (collect_nodes_identified _ rt _ _ Htext2).
  split; [assumption|]. split; [assumption|].
  apply NoDup_Permutation.
  - destruct Hrec1 as (Hnd & _). exact (NoDup_map_inv fst _ Hnd).
  - destruct Hrec2 as (Hnd & _). exact (NoDup_map_inv fst _ Hnd).
  - intros [k e]. split.
    + now apply (survivor_transfer _ _ _ _ Hrec1 Hrec2 Hsame Hdistinct).
    + apply (survivor_transfer _ _ _ _ Hrec2 Hrec1).
      * intros c. symmetry. apply Hsame.
      * intros k0 e0 e0' H1 H2. apply (Hdistinct k0); now apply Hsame.
Qed.

Lemma total_permutation key (ws1 ws2 : list (pyval pyfloat)) :
  Permutation ws1 ws2 -> total key ws1 = total key ws2.
Proof.
  induction 1; simpl; lia.
Qed.

(** X15. When the worker records have integer fields, the summary does not
    depend on the order in which containers and records are visited. *)
Theorem worker_summary_does_not_depend_on_order raw1 raw2 :
  Permutation (flatten_workers raw1) (flatten_workers raw2) ->
  Forall (fun w => counted_worker w = true) (flatten_workers raw1) ->
  exists summary,
    get_workers rt (Fetched raw1) =
      Ok (PDict [("workers", PList (flatten_workers raw1));
                 ("summary", PDict summary)], 200) /\
    get_workers rt (Fetched raw2) =
      Ok (PDict [("workers", PList (flatten_workers raw2));
                 ("summary", PDict summary)], 200).
Proof.
  intros Hperm Hint1.
  assert (Hint2 : Forall (fun w => counted_worker w = true) (flatten_workers raw2))
    by exact (Permutation_Forall Hperm Hint1).
  destruct (counted_worker_fields _ _ Hint1) as (Hq1 & Hb1 & Hp1).
  destruct (counted_worker_fields _ _ Hint2) as (Hq2 & Hb2 & Hp2).
  unfold get_workers.
  rewrite (sum_field_total _ rt _ _ 0 Hq1), (sum_field_total _ rt _ _ 0 Hb1),
    (sum_field_total _ rt _ _ 0 Hp1), (sum_field_total _ rt _ _ 0 Hq2),
    (sum_field_total _ rt _ _ 0 Hb2), (sum_field_total _ rt _ _ 0 Hp2).
  simpl bind.
  rewrite <- (total_permutation "queued" _ _ Hperm),
    <- (total_permutation "blocked" _ _ Hperm),
    <- (total_permutation "processed" _ _ Hperm),
    <- (Permutation_length Hperm).
  eexists. split; reflexivity.
Qed.

End Coverage.

(** * The further properties on the sample data *)

Lemma workers_first_bad_record_witness :
  get_workers plain (Fetched stray_number) = Raise AttributeError /\
  get_workers plain (Fetched text_queued) = Raise TypeError.
Proof.
  assert (Hgood : Forall (fun w : val => int_field "queued" w = true)
                    [PDict [("queued", PInt 1)]]) by (repeat constructor).
  split.
  - exact (proj1 (workers_first_bad_record Empty_set plain stray_number
                    [PDict [("queued", PInt 1)]] (PInt 5) [] eq_refl Hgood)
             eq_refl).
  - exact (proj2 (workers_first_bad_record Empty_set plain text_queued
                    [PDict [("queued", PInt 1)]] (PDict [("queued", PStr "many")]) []
                    eq_refl Hgood)
             [("queued", PStr "many")] eq_refl eq_refl).
Defined.

Lemma load_config_precedence_witness :
  _load_config two_pools_config = safe_load two_pools_config "/etc/wrp.yaml".
Proof.
  exact (proj1 (proj2 (load_config_precedence Empty_set two_pools_config))
           "/etc/wrp.yaml" eq_refl eq_refl eq_refl).
Defined.

Lemma falsy_compose_gives_no_pools_witness :
  get_pools plain zero_compose_config = Ok (PDict [("pools", PList [])], 200).
Proof.
  exact (falsy_compose_gives_no_pools Empty_set plain zero_compose_config
           [("compose", PInt 0)] eq_refl eq_refl).
Defined.

Lemma pools_rejects_malformed_config_witness :
  get_pools plain list_config = Raise AttributeError /\
  get_pools plain text_compose_config = Raise AttributeError.
Proof.
  split.
  - exact (proj1 (pools_rejects_malformed_config Empty_set plain list_config)
             (PList [PStr "compose"]) eq_refl).
  - exact (proj2 (proj2 (pools_rejects_malformed_config Empty_set plain
                           text_compose_config))
             [("compose", PStr "bdev")] (PStr "bdev") eq_refl eq_refl eq_refl).
Defined.

Lemma topology_order_is_first_seen_witness :
  exists nodes stats,
    collect_nodes plain revisited_node [] = Ok nodes /\
    map fst nodes = ["2"; "1"] /\
    get_topology plain "localbox" (Fetched revisited_node) =
      Ok (PDict [("nodes", PList stats)], 200).
Proof.
  destruct (topology_order_is_first_seen Empty_set plain revisited_node "localbox"
              _ eq_refl) as (nodes & stats & Hc & Hkeys & Hresp & _).
  exists nodes, stats. split; [exact Hc|]. split; [exact Hkeys|].
  injection Hresp as <-. reflexivity.
Defined.

Lemma distinct_identities_pass_through_witness :
  collect_nodes plain odd_counters [] =
  Ok [("a", [("event_id", PNone)]); ("b", [("event_id", PStr "latest")])].
Proof.
  apply (distinct_identities_pass_through Empty_set plain odd_counters).
  - repeat constructor.
  - repeat constructor; simpl; intuition discriminate.
Defined.

Lemma uncomparable_event_id_raises_witness :
  get_topology plain "localbox" (Fetched null_counter) = Raise TypeError.
Proof.
  apply (uncomparable_event_id_raises Empty_set plain null_counter "localbox"
           [("1", [("node_id", PInt 1); ("event_id", PInt 5)])]
           "1" [("node_id", PInt 1); ("event_id", PNone)] []).
  - reflexivity.
  - repeat constructor.
  - now left.
  - reflexivity.
Defined.

Lemma integer_node_id_round_trip_witness :
  node_key plain "c1" [("node_id", PInt 42)] = Ok "42" /\
  numeric_node_id plain "42" [("event_id", PInt 3)] = Ok 42 /\
  get_topology plain "localbox"
    (Fetched [("c1", PList [PDict [("node_id", PInt huge_node_id)]])]) =
  Raise ValueError.
Proof.
  destruct (proj1 (integer_node_id_round_trip Empty_set plain 42 "c1"
                     [("node_id", PInt 42)] eq_refl) eq_refl)
    as (Hkey & _ & Hanon).
  split; [exact Hkey|]. split.
  - exact (proj2 (Hanon [("event_id", PInt 3)] eq_refl)).
  - assert (Hover : int_fits (int_max_str_digits plain) huge_node_id = false)
      by (vm_compute; reflexivity).
    exact (proj2 (proj2 (proj2 (integer_node_id_round_trip Empty_set plain
                                  huge_node_id "c1"
                                  [("node_id", PInt huge_node_id)] eq_refl) Hover)
                    "localbox" [])).
Defined.


Lemma node_elements_are_well_formed_witness :
  exists stats,
    Forall
      (fun stat =>
         exists fields n hostname,
           stat = PDict fields /\
           map fst fields = node_stat_keys /\
           assoc "node_id" fields = Some (PInt n) /\
           assoc "hostname" fields = Some hostname /\
           ("localbox" <> "" -> py_truth plain hostname = true))
      stats /\
    List.length stats = 2%nat.
Proof.
  destruct (node_elements_are_well_formed Empty_set plain anonymous_nodes "localbox"
              _ eq_refl) as (stats & Hresp & Hall).
  exists stats. split; [exact Hall|]. injection Hresp as <-. reflexivity.
Defined.

Lemma survivors_do_not_depend_on_order_witness :
  exists nodes1 nodes2,
    collect_nodes plain two_reports [] = Ok nodes1 /\
    collect_nodes plain two_reports_reversed [] = Ok nodes2 /\
    Permutation nodes1 nodes2.
Proof.
  apply (survivors_do_not_depend_on_order Empty_set plain two_reports
           two_reports_reversed).
  - apply perm_swap.
  - repeat constructor.
  - repeat constructor.
  - intros k e e' [[= <- <-] | [[= <- <-] | []]] [[= <-] | [[= <-] | []]] Hnum;
      try reflexivity; discriminate.
Defined.

Lemma worker_summary_does_not_depend_on_order_witness :
  exists summary,
    get_workers plain (Fetched worker_reports) =
      Ok (PDict [("workers", PList (flatten_workers worker_reports));
                 ("summary", PDict summary)], 200) /\
    get_workers plain (Fetched worker_reports_reversed) =
      Ok (PDict [("workers", PList (flatten_workers worker_reports_reversed));
                 ("summary", PDict summary)], 200).
Proof.
  apply (worker_summary_does_not_depend_on_order Empty_set plain worker_reports
           worker_reports_reversed).
  - apply perm_swap.
  - repeat constructor.
Defined.
